(** * talenWF: the TALEN window finder of [src/talenWF/api.py]

    A shallow embedding of [FindTALTask] and of the helpers it calls,
    followed by the properties of the candidate enumeration.

    - Python [int] is [Z]; [//] by [2] is [Z.div] (both round to the floor).
    - Python [str] is a list of characters, with Python's slicing and
      indexing rules for negative and out-of-range positions written out.
    - A generator is the list of values it yields together with the way it
      stops: normal exhaustion or a raised exception. *)

From Stdlib Require Import ZArith List Ascii String Bool Lia Sorted DecimalString.
Import ListNotations.
Local Open Scope Z_scope.

(** ** Python strings *)

Definition str := list ascii.

Definition py (s : string) : str := list_ascii_of_string s.

Fixpoint str_eqb (a b : str) : bool :=
  match a, b with
  | [], [] => true
  | x :: a', y :: b' => Ascii.eqb x y && str_eqb a' b'
  | _, _ => false
  end.

Definition len {A} (s : list A) : Z := Z.of_nat (List.length s).

(** [range(a, b)] *)
Definition range (a b : Z) : list Z :=
  map (fun k => a + Z.of_nat k) (seq 0 (Z.to_nat (b - a))).

(** The bound of a slice, as Python clamps it: a negative bound counts from
    the end, and the result is cut to [0 .. n]. *)
Definition clamp (n i : Z) : Z :=
  if i <? 0 then Z.max (i + n) 0 else Z.min i n.

(** [s[a:b]] *)
Definition slice (s : str) (a b : Z) : str :=
  let lo := clamp (len s) a in
  let hi := clamp (len s) b in
  firstn (Z.to_nat (hi - lo)) (skipn (Z.to_nat lo) s).

(** [s.lower()] on the ASCII letters. *)
Definition lower_char (c : ascii) : ascii :=
  let n := nat_of_ascii c in
  if (Nat.leb 65 n && Nat.leb n 90)%bool then ascii_of_nat (n + 32) else c.

Definition lower (s : str) : str := map lower_char s.

(** [str(z)] for an integer. *)
Definition str_of_Z (z : Z) : str := py (NilZero.string_of_int (Z.to_int z)).

(** ** Exceptions *)

Inductive exn : Type :=
| KeyError (key : str)
| IndexError
| AssertionError
| AttributeError (name : str)
| NameError (name : str)
| StopIteration
| FileNotFoundError (msg : str)
| OSError (msg : str)
| ValueError (msg : str)
| Exception (msg : str).

(** An expression either raises or has a value. *)
Definition E (A : Type) : Type := (exn + A)%type.

(** [s[i]]: a one-character string, or [IndexError]. *)
Definition getitem (s : str) (i : Z) : E str :=
  let k := if i <? 0 then i + len s else i in
  if (0 <=? k) && (k <? len s) then
    match nth_error s (Z.to_nat k) with
    | Some c => inr [c]
    | None => inl IndexError
    end
  else inl IndexError.

(** A [dict] with string keys and values, and [d[k]]. *)
Definition dict := list (str * str).

Definition dict_getitem (d : dict) (k : str) : E str :=
  match find (fun kv => str_eqb (fst kv) k) d with
  | Some kv => inr (snd kv)
  | None => inl (KeyError k)
  end.

(** ** Generators

    [gen Y A]: a piece of a generator body that yields values of type [Y]
    and then either raises or goes on with a result of type [A]. *)

Definition gen (Y A : Type) : Type := (list Y * E A)%type.

Definition ret {Y A} (a : A) : gen Y A := ([], inr a).

Definition raise {Y A} (e : exn) : gen Y A := ([], inl e).

Definition yield {Y} (y : Y) : gen Y unit := ([y], inr tt).

Definition lift {Y A} (e : E A) : gen Y A := ([], e).

Definition bind {Y A B} (m : gen Y A) (f : A -> gen Y B) : gen Y B :=
  match m with
  | (ys, inl e) => (ys, inl e)
  | (ys, inr a) => let (zs, r) := f a in (ys ++ zs, r)
  end.

Declare Scope gen_scope.
Delimit Scope gen_scope with gen.
Notation "x <- m ;; k" := (bind m (fun x => k))
  (at level 61, m at next level, right associativity) : gen_scope.
Notation "m ;; k" := (bind m (fun _ => k))
  (at level 61, right associativity) : gen_scope.
Local Open Scope gen_scope.

Definition yielded {Y A} (g : gen Y A) : list Y := fst g.

Definition raised {Y A} (g : gen Y A) : option exn :=
  match snd g with inl e => Some e | inr _ => None end.

(** [for x in xs: body] *)
Fixpoint for_each {X Y} (xs : list X) (body : X -> gen Y unit) : gen Y unit :=
  match xs with
  | [] => ret tt
  | x :: xs' => body x ;; for_each xs' body
  end.

(** [for x in xs: body], the body updating a local variable. *)
Fixpoint for_state {X S Y} (xs : list X) (st : S) (body : S -> X -> gen Y S)
  : gen Y S :=
  match xs with
  | [] => ret st
  | x :: xs' => st' <- body st x ;; for_state xs' st' body
  end.

(** [for x in xs: body], the body ending an iteration normally or by
    [break]. *)
Inductive ctl : Type := Next | Break.

Fixpoint for_break {X Y} (xs : list X) (body : X -> gen Y ctl) : gen Y unit :=
  match xs with
  | [] => ret tt
  | x :: xs' =>
      c <- body x ;;
      match c with
      | Next => for_break xs' body
      | Break => ret tt
      end
  end.

(** ** The module [api] *)

Definition COMPLEMENT : dict :=
  [ (py "T", py "A"); (py "A", py "T"); (py "C", py "G"); (py "G", py "C") ].

Definition findAll (seq sub : str) (start : Z) (end_ : option Z) : list Z :=
  let end_ := match end_ with None => len seq | Some e => e end in
  filter (fun i => str_eqb (slice seq i (i + len sub)) sub) (range start end_).

(** The attributes of a [FindTALTask] object. [sequence] and [sequence_id]
    do not exist until [run] assigns them. *)
Record FindTALTask : Type := mkTask {
  fasta : str;
  min_spacer : Z;
  max_spacer : Z;
  array_min : Z;
  array_max : Z;
  outpath : option str;
  filter_base : option Z;
  upstream_bases : list str;
  max_dist : Z;
  min_dist : Z;
  sequence : option str;
  sequence_id : option str
}.

Definition __init__ (fasta : str) (min_spacer max_spacer array_min array_max : Z)
    (outpath : option str) (filter_base : option Z) (upstream_bases : list str)
  : FindTALTask :=
  {| fasta := fasta;
     min_spacer := min_spacer;
     max_spacer := max_spacer;
     array_min := array_min;
     array_max := array_max;
     outpath := outpath;
     filter_base := filter_base;
     upstream_bases := upstream_bases;
     max_dist := 2 * array_max + max_spacer;
     min_dist := 2 * array_min + min_spacer;
     sequence := None;
     sequence_id := None |}.

Definition self_sequence (self : FindTALTask) : E str :=
  match sequence self with
  | Some s => inr s
  | None => inl (AttributeError (py "sequence"))
  end.

Definition self_sequence_id (self : FindTALTask) : E str :=
  match sequence_id self with
  | Some s => inr s
  | None => inl (AttributeError (py "sequence_id"))
  end.

(** One row of the output table; a field per key of the dictionary. *)
Record row : Type := mkRow {
  Sequence_Name : str;
  Cut_Site : Z;
  TAL1_start : Z;
  TAL2_start : Z;
  TAL1_length : Z;
  TAL2_length : Z;
  Spacer_length : Z;
  Spacer_range : str;
  TAL1_RVDs : str;
  TAL2_RVDs : str;
  Plus_strand_sequence : str;
  Unique_RE_sites_in_spacer : str;
  Pct_RVDs_HD_or_NN_NH : str
}.

(** The four local variables of [_create_tal_pair]. *)
Definition tal1_start (up_pos : Z) : Z := up_pos + 1.
Definition tal1_end (cut spacer_length : Z) : Z := cut - spacer_length / 2.
Definition tal2_start (cut spacer_length : Z) : Z :=
  cut + (spacer_length + 1) / 2 - 1.
Definition tal2_end (down_pos : Z) : Z := down_pos.

Definition _create_tal_pair (self : FindTALTask)
    (cut up_pos down_pos spacer_length : Z) : E row :=
  let tal1_start := tal1_start up_pos in
  let tal1_end := tal1_end cut spacer_length in
  let tal2_start := tal2_start cut spacer_length in
  let tal2_end := tal2_end down_pos in
  match self_sequence self with
  | inl e => inl e
  | inr s =>
      let tal1 := slice s tal1_start tal1_end in
      let tal2 := slice s tal2_start tal2_end in
      let spacer := slice s tal1_end tal2_start in
      match getitem s up_pos with
      | inl e => inl e
      | inr cu =>
          match getitem s down_pos with
          | inl e => inl e
          | inr cd =>
              let plus_seq :=
                cu ++ py " " ++ tal1 ++ py " " ++ lower spacer ++ py " "
                   ++ tal2 ++ py " " ++ cd in
              match self_sequence_id self with
              | inl e => inl e
              | inr sid =>
                  inr {| Sequence_Name := sid;
                         Cut_Site := cut;
                         TAL1_start := tal1_start;
                         TAL2_start := tal2_end - 1;
                         TAL1_length := len tal1;
                         TAL2_length := len tal2;
                         Spacer_length := spacer_length;
                         Spacer_range :=
                           str_of_Z tal1_end ++ py "-" ++ str_of_Z tal2_start;
                         TAL1_RVDs := [];
                         TAL2_RVDs := [];
                         Plus_strand_sequence := plus_seq;
                         Unique_RE_sites_in_spacer := [];
                         Pct_RVDs_HD_or_NN_NH := [] |}
              end
          end
      end
  end.

(** [while upstream_q and upstream_q[0] < min_i_allowed: upstream_q.popleft()] *)
Fixpoint evict (upstream_q : list Z) (min_i_allowed : Z) : list Z :=
  match upstream_q with
  | [] => []
  | t :: q' => if t <? min_i_allowed then evict q' min_i_allowed else upstream_q
  end.

(** [assert c] *)
Definition assert_ {Y} (c : bool) : gen Y unit :=
  if c then ret tt else raise AssertionError.

(** The filtered branch of the loop body (lines 64-79), entered when
    [self.filter_base is not None]. *)
Definition filtered_body (self : FindTALTask) (fb : Z)
    (upstream_base downstream_base : str) : gen row unit :=
  too_close <-
    (if fb - max_dist self / 2 <? 0 then ret true
     else s <- lift (self_sequence self) ;;
          ret (fb + (max_dist self + 1) / 2 + 1 >? len s)) ;;
  if too_close : bool then ret tt
  else
    s <- lift (self_sequence self) ;;
    let up_pos_array :=
      findAll s upstream_base
        (fb - max_dist self / 2 - 1) (Some (fb - min_dist self / 2 - 1)) in
    let down_pos_array :=
      findAll s downstream_base
        (fb + (min_dist self + 1) / 2) (Some (fb + (max_dist self + 1) / 2 + 1)) in
    for_each up_pos_array (fun up_pos =>
      for_each down_pos_array (fun down_pos =>
        cu <- lift (getitem s up_pos) ;;
        assert_ (str_eqb cu upstream_base) ;;
        cd <- lift (getitem s down_pos) ;;
        assert_ (str_eqb cd downstream_base) ;;
        for_each (range (min_spacer self) (max_spacer self + 1))
          (fun spacer_length =>
             r <- lift (_create_tal_pair self fb up_pos down_pos spacer_length) ;;
             yield r))).

(** The two inner loops of the scan (lines 96-98), for one anchor pair
    [(t, j)]. *)
Definition expand (self : FindTALTask) (t j : Z) : gen row unit :=
  for_each (range (min_spacer self) (max_spacer self + 1))
    (fun spacer_length =>
       for_each (range (t + min_dist self / 2) (j - min_dist self / 2))
         (fun cut =>
            r <- lift (_create_tal_pair self cut t j spacer_length) ;;
            yield r)).

(** One iteration of the scan [for j in range(len(self.sequence))]
    (lines 83-100); the result is the queue after the iteration. *)
Definition scan_step (self : FindTALTask) (s upstream_base : str)
    (upstream_q : list Z) (j : Z) : gen row (list Z) :=
  ch <- lift (getitem s j) ;;
  if str_eqb ch upstream_base then ret (upstream_q ++ [j])
  else
    cb <- lift (dict_getitem COMPLEMENT upstream_base) ;;
    if str_eqb ch cb then
      let min_i_allowed := j - max_dist self in
      let upstream_q := evict upstream_q min_i_allowed in
      let max_i_allowed := j - min_dist self in
      for_break upstream_q (fun t =>
        if t <=? max_i_allowed then expand self t j ;; ret Next
        else ret Break) ;;
      ret upstream_q
    else ret upstream_q.

(** The unfiltered branch of the loop body (lines 81-100). *)
Definition scan_body (self : FindTALTask) (upstream_base : str)
  : gen row unit :=
  s <- lift (self_sequence self) ;;
  for_state (range 0 (len s)) [] (scan_step self s upstream_base) ;;
  ret tt.

(** The body of [for upstream_base in self.upstream_bases]. *)
Definition upstream_body (self : FindTALTask) (upstream_base : str)
  : gen row unit :=
  downstream_base <- lift (dict_getitem COMPLEMENT upstream_base) ;;
  match filter_base self with
  | Some fb => filtered_body self fb upstream_base downstream_base
  | None => scan_body self upstream_base
  end.

Definition _find_tal_pairs_for_seq (self : FindTALTask) : gen row unit :=
  for_each (upstream_bases self) (upstream_body self).

(** ** [run]

    What [open(self.fasta)] and the FASTA parser find on disk is a parameter
    of [run]. *)

Inductive fasta_file : Type :=
| Missing                              (* [open] raises [FileNotFoundError] *)
| Unreadable (e : exn)                 (* [open] or the parser raises [e] *)
| Records (rs : list (str * str)).     (* the records: identifier, sequence *)

(** The names bound at the top level of [api.py], by its imports and its
    definitions (lines 1-19), and the builtins [run] uses. *)
Definition api_globals : list str :=
  map py [ "Path"; "List"; "Optional"; "deque"; "pd"; "SeqIO";
           "COMPLEMENT"; "findAll"; "FindTALTask" ]%string.

Definition builtins_used : list str :=
  map py [ "open"; "next"; "len"; "str"; "range"; "list";
           "FileNotFoundError"; "Exception" ]%string.

Definition load_global (name : str) : E unit :=
  if existsb (str_eqb name) (api_globals ++ builtins_used) then inr tt
  else inl (NameError name).

(** [str(e)] *)
Definition exn_str (e : exn) : str :=
  match e with
  | KeyError k => py "'" ++ k ++ py "'"
  | IndexError => py "string index out of range"
  | AssertionError => []
  | AttributeError n =>
      py "'FindTALTask' object has no attribute '" ++ n ++ py "'"
  | NameError n => py "name '" ++ n ++ py "' is not defined"
  | StopIteration => []
  | FileNotFoundError m => m
  | OSError m => m
  | ValueError m => m
  | Exception m => m
  end.

Definition upper_char (c : ascii) : ascii :=
  let n := nat_of_ascii c in
  if (Nat.leb 97 n && Nat.leb n 122)%bool then ascii_of_nat (n - 32) else c.

Definition upper (s : str) : str := map upper_char s.

(** The [try] block of [run] (lines 141-145). *)
Definition run_try (self : FindTALTask) (file : fasta_file) : E (str * str) :=
  match file with
  | Missing => inl (FileNotFoundError (fasta self))
  | Unreadable e => inl e
  | Records rs =>
      match rs with
      | [] => inl StopIteration
      | first_record :: _ =>
          match load_global (py "logger") with
          | inl e => inl e
          | inr _ =>
              match load_global (py "logger") with
              | inl e => inl e
              | inr _ => inr first_record
              end
          end
      end
  end.

(** What a completed [run] leaves: the object with its two new attributes,
    the rows of the DataFrame, and the table written when [outpath] is set. *)
Record run_result : Type := mkResult {
  self_after : FindTALTask;
  df : list row;
  written : option (str * list row)
}.

(** The two assignments [self.sequence = str(first_record.seq).upper()] and
    [self.sequence_id = first_record.id] (lines 152-153). *)
Definition with_sequence (self : FindTALTask) (first_record : str * str)
  : FindTALTask :=
  {| fasta := fasta self;
     min_spacer := min_spacer self;
     max_spacer := max_spacer self;
     array_min := array_min self;
     array_max := array_max self;
     outpath := outpath self;
     filter_base := filter_base self;
     upstream_bases := upstream_bases self;
     max_dist := max_dist self;
     min_dist := min_dist self;
     sequence := Some (upper (snd first_record));
     sequence_id := Some (fst first_record) |}.

Definition run (self : FindTALTask) (file : fasta_file) : E run_result :=
  match run_try self file with
  | inl (FileNotFoundError _) =>
      inl (FileNotFoundError (py "FASTA file not found: " ++ fasta self))
  | inl e => inl (Exception (py "Error reading FASTA file: " ++ exn_str e))
  | inr first_record =>
      let self := with_sequence self first_record in
      match _find_tal_pairs_for_seq self with
      | (_, inl e) => inl e
      | (tal_window_rows, inr _) =>
          inr {| self_after := self;
                 df := tal_window_rows;
                 written :=
                   match outpath self with
                   | Some p => Some (p, tal_window_rows)
                   | None => None
                   end |}
      end
  end.

(** * The callers of [run] *)

(** How a script ends: it returns, leaves through [sys.exit], or an
    exception escapes. *)
Inductive ending : Type :=
| Returns
| SystemExit (code : Z)
| Uncaught (e : exn).

(** [s.split(sep)] for a one-character separator. *)
Fixpoint split (s : str) (sep : ascii) : list str :=
  match s with
  | [] => [[]]
  | c :: s' =>
      if Ascii.eqb c sep then [] :: split s' sep
      else match split s' sep with
           | [] => [[c]]
           | w :: ws => (c :: w) :: ws
           end
  end.

(** ** [cli.py] *)

Module cli.

(** The namespace that [parser.parse_args()] returns (lines 11-20); the
    options without default are [None] when absent. *)
Record Namespace : Type := mkNamespace {
  fasta : str;
  min_spacer : Z;
  max_spacer : Z;
  array_min : Z;
  array_max : Z;
  outpath : str;
  filter_base : option Z;
  upstream_bases : option str
}.

(** The two levels at which [main] logs; the logger shows both. *)
Inductive level : Type := INFO | ERROR.

(** [main], after the arguments are parsed. The file is read twice, by
    [main] (lines 23-34) and then by [run]: [file_main] and [file_run] are
    what the two readings find. The result is the lines logged and the way
    [main] ends. *)
Definition main (args : Namespace) (file_main file_run : fasta_file)
  : list (level * str) * ending :=
  let opened : E (str * str) :=
    match file_main with
    | Missing => inl (FileNotFoundError (fasta args))
    | Unreadable e => inl e
    | Records [] => inl StopIteration
    | Records (first_record :: _) => inr first_record
    end in
  match opened with
  | inl (FileNotFoundError _) =>
      ([(ERROR, py "FASTA file not found: " ++ fasta args)], SystemExit 1)
  | inl e =>
      ([(ERROR, py "Error reading FASTA file: " ++ exn_str e)], SystemExit 1)
  | inr first_record =>
      let logged :=
        [ (INFO, py "Processing FASTA file: " ++ fasta args);
          (INFO, py "First sequence: " ++ fst first_record
                   ++ py " (length: " ++ str_of_Z (len (snd first_record))
                   ++ py ")");
          (INFO, py "Starting TAL finding task...") ] in
      let task :=
        __init__ (fasta args) (min_spacer args) (max_spacer args)
          (array_min args) (array_max args) (Some (outpath args))
          (filter_base args)
          (match upstream_bases args with
           | Some (c :: u) => split (c :: u) ","%char
           | _ => [py "T"]
           end) in
      match run task file_run with
      | inl e => (logged, Uncaught e)
      | inr _ =>
          (logged ++ [(INFO, py "TAL finding task completed successfully!")],
           Returns)
      end
  end.

End cli.

(** ** [check_package.py] *)

Module check_package.

(** What an [import] statement of the script does. *)
Inductive import_outcome : Type :=
| Imported
| ImportError (msg : str)
| ImportRaises (e : exn).

Definition check_imports (imp : import_outcome) : list str * E bool :=
  match imp with
  | Imported => ([py "✅ Imports successful"], inr true)
  | ImportError m => ([py "❌ Import failed: " ++ m], inr false)
  | ImportRaises e => ([], inl e)
  end.

(** The handler [except Exception as e] of [check_basic_functionality]
    (lines 56-58), after the lines printed so far. *)
Definition failed (printed : list str) (detail : str) : list str * bool :=
  (printed ++ [py "❌ Basic functionality test failed: " ++ detail], false).

(** [check_basic_functionality]: [imp] is what the import of [FindTALTask]
    does, [tmp] the creation of the temporary FASTA file (its name, or the
    error), [file] what [run] finds when it reads it, and [cleanup] the
    [finally] block. *)
Definition check_basic_functionality (imp : import_outcome) (tmp : E str)
    (file : fasta_file) (cleanup : E unit) : list str * bool :=
  match imp with
  | ImportError m => failed [] m
  | ImportRaises e => failed [] (exn_str e)
  | Imported =>
      match tmp with
      | inl e => failed [] (exn_str e)
      | inr temp_fasta =>
          let task :=
            __init__ temp_fasta 14 18 14 18 (Some (py "NA")) (Some 31)
              [py "T"] in
          match run task file with
          | inl e =>
              match cleanup with
              | inl e' => failed [] (exn_str e')
              | inr _ => failed [] (exn_str e)
              end
          | inr res =>
              if len (df res) >? 0 then
                let printed :=
                  [ py "✅ Basic functionality test passed";
                    py "   Found " ++ str_of_Z (len (df res))
                      ++ py " TAL pairs" ] in
                match cleanup with
                | inl e' => failed printed (exn_str e')
                | inr _ => (printed, true)
                end
              else
                let printed :=
                  [ py "❌ Basic functionality test failed - no results" ] in
                match cleanup with
                | inl e' => failed printed (exn_str e')
                | inr _ => (printed, false)
                end
          end
      end
  end.

(** [main]: the lines printed and the value returned, or the exception
    that escapes. *)
Definition main (imp1 imp2 : import_outcome) (tmp : E str)
    (file : fasta_file) (cleanup : E unit) : list str * E Z :=
  let header := [ py "Checking talenWF package..."; repeat "="%char 40 ] in
  match check_imports imp1 with
  | (p1, inl e) => (header ++ p1, inl e)
  | (p1, inr import_ok) =>
      let (p2, func_ok) := check_basic_functionality imp2 tmp file cleanup in
      let printed := header ++ p1 ++ p2 ++ [ repeat "="%char 40 ] in
      if import_ok && func_ok then
        (printed
           ++ [ py "🎉 All checks passed! Package is working correctly." ],
         inr 0)
      else
        (printed
           ++ [ py "💥 Some checks failed. Please review the errors above." ],
         inr 1)
  end.

End check_package.

(** * Specification vocabulary *)

(** [total P Q g]: [g] raises nothing, every value it yields satisfies
    [P], and its result satisfies [Q]. *)
Definition total {Y A} (P : Y -> Prop) (Q : A -> Prop) (g : gen Y A) : Prop :=
  Forall P (yielded g) /\ exists a, snd g = inr a /\ Q a.

Definition valid_base (b : str) : Prop := In b (map fst COMPLEMENT).

(** What the scan guarantees of a row it yields for [upstream_base]: the
    row is built from two anchors and a cut site inside these bounds. *)
Definition scan_row (self : FindTALTask) (s upstream_base downstream_base : str)
    (r : row) : Prop :=
  exists cut t j spacer_length,
    _create_tal_pair self cut t j spacer_length = inr r /\
    0 <= t < j /\ j < len s /\
    getitem s t = inr upstream_base /\
    getitem s j = inr downstream_base /\
    j - max_dist self <= t <= j - min_dist self /\
    min_spacer self <= spacer_length <= max_spacer self /\
    t + min_dist self / 2 <= cut < j - min_dist self / 2.

(** The queue at the start of iteration [j]: increasing, made of earlier
    occurrences of the upstream base, and holding every such occurrence
    that is not older than [j - max_dist]. *)
Definition queue_inv (self : FindTALTask) (s upstream_base : str)
    (j : Z) (q : list Z) : Prop :=
  StronglySorted Z.lt q /\
  (forall t, In t q -> 0 <= t < j /\ getitem s t = inr upstream_base) /\
  (forall t, 0 <= t < j -> getitem s t = inr upstream_base ->
             j - max_dist self <= t -> In t q).

(** What the filtered branch guarantees of a row it yields. *)
Definition filtered_row (self : FindTALTask) (s : str) (fb : Z)
    (upstream_base downstream_base : str) (r : row) : Prop :=
  exists up_pos down_pos spacer_length,
    _create_tal_pair self fb up_pos down_pos spacer_length = inr r /\
    In up_pos (findAll s upstream_base (fb - max_dist self / 2 - 1)
                 (Some (fb - min_dist self / 2 - 1))) /\
    In down_pos (findAll s downstream_base (fb + (min_dist self + 1) / 2)
                   (Some (fb + (max_dist self + 1) / 2 + 1))) /\
    getitem s up_pos = inr upstream_base /\
    getitem s down_pos = inr downstream_base /\
    min_spacer self <= spacer_length <= max_spacer self /\
    0 <= fb - max_dist self / 2 /\
    fb + (max_dist self + 1) / 2 + 1 <= len s.

(** What the enumeration guarantees of a row, in either mode. *)
Definition emitted_row (self : FindTALTask) (s : str) (r : row) : Prop :=
  exists upstream_base downstream_base,
    In upstream_base (upstream_bases self) /\
    dict_getitem COMPLEMENT upstream_base = inr downstream_base /\
    match filter_base self with
    | Some fb => filtered_row self s fb upstream_base downstream_base r
    | None => scan_row self s upstream_base downstream_base r
    end.

(** ** Example inputs *)

(** A task as [run] hands it to the enumeration: built by [__init__], then
    given the first record of the FASTA file. *)
Definition example_task (min_spacer max_spacer array_min array_max : Z)
    (filter_base : option Z) (upstream_bases : list str) (seq : str)
  : FindTALTask :=
  with_sequence
    (__init__ (py "input.fasta") min_spacer max_spacer array_min array_max
       (Some (py "talenWF_out")) filter_base upstream_bases)
    (py "seq1", seq).

(** The sequence of [tests/test_api.py]: ["T"*20 + "C"*21 + "A"*20]. *)
Definition test_sequence : str :=
  repeat "T"%char 20 ++ repeat "C"%char 21 ++ repeat "A"%char 20.

(** The task of [test_find_tal_task_basic]. *)
Definition test_task_filtered : FindTALTask :=
  example_task 14 18 14 18 (Some 31) [py "T"] test_sequence.

(** The task of [test_find_tal_task_without_filter]. *)
Definition test_task_unfiltered : FindTALTask :=
  example_task 14 18 14 18 None [py "T"] test_sequence.

(** [min_dist = 3], [max_dist = 4]; the anchors of ["TCCCA"] are exactly
    [max_dist] apart. *)
Definition boundary_task : FindTALTask :=
  example_task 1 2 1 1 None [py "T"] (py "TCCCA").

(** [min_dist = 4] is even; the anchors of ["TCCCA"] are exactly [min_dist]
    apart. *)
Definition even_task : FindTALTask :=
  example_task 2 2 1 1 None [py "T"] (py "TCCCA").

(** A spacer of up to 9 between arrays of length 1. *)
Definition wide_spacer_task : FindTALTask :=
  example_task 1 9 1 1 None [py "T"] (py "TCCA").

(** [array_min > array_max], yet [min_dist = 5 <= max_dist = 6]. *)
Definition inverted_array_task : FindTALTask :=
  example_task 1 4 2 1 None [py "T"] (py "TCCCCA").

(** An upstream base that is not a nucleotide. *)
Definition bad_base_task : FindTALTask :=
  example_task 14 18 14 18 None [py "N"] test_sequence.

(** [min_spacer > max_spacer]. *)
Definition inverted_spacer_task : FindTALTask :=
  example_task 18 14 14 18 None [py "T"] test_sequence.

(** A site too close to the left end (the second example of the tests'
    sequence: [filter_base = 5], [max_dist = 54]). *)
Definition edge_task : FindTALTask :=
  example_task 14 18 14 18 (Some 5) [py "T"] test_sequence.

(** The attributes that [__init__] derives. *)
Definition initialised (self : FindTALTask) : Prop :=
  max_dist self = 2 * array_max self + max_spacer self /\
  min_dist self = 2 * array_min self + min_spacer self.

(** The configurations that the specification calls configuration errors. *)
Definition config_error (self : FindTALTask) : Prop :=
  min_spacer self > max_spacer self \/
  array_min self > array_max self \/
  exists b, In b (upstream_bases self) /\ ~ valid_base b.

(** ** Order of the rows *)

(** Lexicographic order on triples and quadruples of integers. *)
Definition lex3 (a b : Z * Z * Z) : Prop :=
  let '(a1, a2, a3) := a in
  let '(b1, b2, b3) := b in
  a1 < b1 \/ (a1 = b1 /\ (a2 < b2 \/ (a2 = b2 /\ a3 < b3))).

Definition lex4 (a b : Z * Z * Z * Z) : Prop :=
  let '(a1, a2, a3, a4) := a in
  let '(b1, b2, b3, b4) := b in
  a1 < b1 \/ (a1 = b1 /\ lex3 (a2, a3, a4) (b2, b3, b4)).

(** A row comes before another in the scan: by downstream anchor, then
    upstream anchor, then spacer length, then cut site. *)
Definition scan_before (r r' : row) : Prop :=
  lex4 (TAL2_start r, TAL1_start r, Spacer_length r, Cut_Site r)
       (TAL2_start r', TAL1_start r', Spacer_length r', Cut_Site r').

(** A row comes before another in the filtered enumeration: by upstream
    anchor, then downstream anchor, then spacer length. *)
Definition filtered_before (r r' : row) : Prop :=
  lex3 (TAL1_start r, TAL2_start r, Spacer_length r)
       (TAL1_start r', TAL2_start r', Spacer_length r').

(** The same object with [filter_base = None]. *)
Definition without_filter (self : FindTALTask) : FindTALTask :=
  {| fasta := fasta self;
     min_spacer := min_spacer self;
     max_spacer := max_spacer self;
     array_min := array_min self;
     array_max := array_max self;
     outpath := outpath self;
     filter_base := None;
     upstream_bases := upstream_bases self;
     max_dist := max_dist self;
     min_dist := min_dist self;
     sequence := sequence self;
     sequence_id := sequence_id self |}.

(** The innermost loop of both modes: the rows of one anchor pair and cut
    site, one for each spacer length (lines 77-78). *)
Definition spacer_rows (self : FindTALTask) (cut up_pos down_pos : Z)
  : gen row unit :=
  for_each (range (min_spacer self) (max_spacer self + 1))
    (fun spacer_length =>
       r <- lift (_create_tal_pair self cut up_pos down_pos spacer_length) ;;
       yield r).

(** A string of ASCII characters. On such a string a byte is a character,
    and [lower] and [upper] are Python's [str.lower] and [str.upper]. *)
Definition ascii_only (s : str) : Prop :=
  forallb (fun c => Nat.ltb (nat_of_ascii c) 128) s = true.

(** * Properties *)

(** Linear arithmetic with the divisions by two written as equations. *)
Ltac dlia := Z.to_euclidean_division_equations; lia.

(** ** Strings, ranges and slices *)

Lemma str_eqb_eq (a b : str) : str_eqb a b = true <-> a = b.
Proof.
  revert b; induction a as [|x a IH]; intros [|y b]; simpl;
    try (split; [discriminate | congruence]); try tauto.
  rewrite andb_true_iff, Ascii.eqb_eq, IH. split.
  - intros [-> ->]; reflexivity.
  - intros H; injection H; auto.
Qed.

Lemma str_eqb_refl (a : str) : str_eqb a a = true.
Proof. apply str_eqb_eq; reflexivity. Qed.

Lemma range_cons (a b : Z) : a < b -> range a b = a :: range (a + 1) b.
Proof.
  intros H. unfold range.
  replace (Z.to_nat (b - a)) with (S (Z.to_nat (b - (a + 1)))) by lia.
  simpl. f_equal; [lia|].
  rewrite <- seq_shift, map_map. apply map_ext. intros k. lia.
Qed.

Lemma range_nil (a b : Z) : b <= a -> range a b = [].
Proof.
  intros H. unfold range. replace (Z.to_nat (b - a)) with 0%nat by lia.
  reflexivity.
Qed.

Lemma in_range (a b i : Z) : In i (range a b) <-> a <= i < b.
Proof.
  unfold range. rewrite in_map_iff. split.
  - intros (k & <- & Hk). apply in_seq in Hk. lia.
  - intros H. exists (Z.to_nat (i - a)). split; [lia|].
    apply in_seq. lia.
Qed.

Lemma in_findAll (s sub : str) (a b i : Z) :
  In i (findAll s sub a (Some b)) <->
  a <= i < b /\ slice s i (i + len sub) = sub.
Proof.
  unfold findAll. rewrite filter_In, in_range, str_eqb_eq. tauto.
Qed.

Lemma getitem_nonneg (s : str) (i : Z) :
  0 <= i < len s -> exists c, getitem s i = inr [c].
Proof.
  intros H. unfold getitem.
  replace (i <? 0) with false by lia.
  replace ((0 <=? i) && (i <? len s)) with true by lia.
  destruct (nth_error s (Z.to_nat i)) as [c|] eqn:Hn; [eauto|].
  apply nth_error_None in Hn. unfold len in H. lia.
Qed.


Lemma firstn_skipn_one {A} (m k : nat) (s : list A) (c : A) :
  firstn m (skipn k s) = [c] -> nth_error s k = Some c /\ (0 < m)%nat.
Proof.
  revert s; induction k as [|k IH]; intros s H.
  - destruct m; [discriminate|]. destruct s as [|x s]; [discriminate|].
    simpl in H. injection H as -> _. split; [reflexivity | lia].
  - destruct s as [|x s].
    + rewrite skipn_nil, firstn_nil in H. discriminate.
    + simpl in *. auto.
Qed.

(** A one-character slice that is not empty is the character at that
    index, also where the index is negative. *)
Lemma slice_one_getitem (s : str) (i : Z) (c : ascii) :
  slice s i (i + 1) = [c] -> getitem s i = inr [c].
Proof.
  unfold slice, getitem. intros H.
  apply firstn_skipn_one in H. destruct H as [Hn Hm].
  assert (Hlt : (Z.to_nat (clamp (len s) i) < List.length s)%nat)
    by (apply nth_error_Some; congruence).
  assert (Hk : clamp (len s) i = if i <? 0 then i + len s else i).
  { unfold clamp, len in *.
    destruct (Z.ltb_spec i 0), (Z.ltb_spec (i + 1) 0); lia. }
  rewrite Hk in Hn, Hlt.
  replace ((0 <=? _) && (_ <? len s)) with true.
  - rewrite Hn. reflexivity.
  - symmetry. apply andb_true_iff. unfold clamp, len in *.
    destruct (Z.ltb_spec i 0), (Z.ltb_spec (i + 1) 0); lia.
Qed.

(** ** Reasoning about generators *)

Section GenRules.
Context {Y : Type}.

Lemma total_ret {A} (P : Y -> Prop) (Q : A -> Prop) (a : A) :
  Q a -> total P Q (ret a).
Proof. intros H. split; [constructor | exists a; split; [reflexivity | exact H]]. Qed.


Lemma total_yield (P : Y -> Prop) (Q : unit -> Prop) (y : Y) :
  P y -> Q tt -> total P Q (yield y).
Proof.
  intros Hy H. split; [repeat constructor; exact Hy|].
  exists tt; split; [reflexivity | exact H].
Qed.

Lemma total_bind {A B} (P : Y -> Prop) (R : A -> Prop) (Q : B -> Prop)
    (m : gen Y A) (f : A -> gen Y B) :
  total P R m -> (forall a, R a -> total P Q (f a)) -> total P Q (bind m f).
Proof.
  destruct m as [ys r]. intros [Hys (a & Hr & Ha)] Hf.
  simpl in Hr. subst r. specialize (Hf a Ha).
  unfold total, bind. destruct (f a) as [zs r]. destruct Hf as [Hzs Hq].
  split; [apply Forall_app; split; assumption | exact Hq].
Qed.

Lemma total_weaken {A} (P P' : Y -> Prop) (Q Q' : A -> Prop) (g : gen Y A) :
  total P Q g -> (forall y, P y -> P' y) -> (forall a, Q a -> Q' a) ->
  total P' Q' g.
Proof.
  intros [Hys (a & Hr & Ha)] HP HQ. split.
  - eapply Forall_impl; eauto.
  - eauto.
Qed.

Lemma total_for_each {X} (P : Y -> Prop) (xs : list X)
    (body : X -> gen Y unit) :
  (forall x, In x xs -> total P (fun _ => True) (body x)) ->
  total P (fun _ => True) (for_each xs body).
Proof.
  induction xs as [|x xs IH]; intros H; simpl.
  - apply total_ret; exact I.
  - eapply total_bind; [apply H; left; reflexivity|].
    intros _ _. apply IH. intros; apply H; right; assumption.
Qed.

Lemma total_for_break {X} (P : Y -> Prop) (xs : list X)
    (body : X -> gen Y ctl) :
  (forall x, In x xs -> total P (fun _ => True) (body x)) ->
  total P (fun _ => True) (for_break xs body).
Proof.
  induction xs as [|x xs IH]; intros H; simpl.
  - apply total_ret; exact I.
  - eapply total_bind; [apply H; left; reflexivity|].
    intros [|] _.
    + apply IH. intros; apply H; right; assumption.
    + apply total_ret; exact I.
Qed.

(** A loop over [range(a, b)] that keeps an invariant [I j] of its local
    state at the start of iteration [j]. *)
Lemma total_for_state_range {S} (P : Y -> Prop) (I : Z -> S -> Prop)
    (a b : Z) (st : S) (body : S -> Z -> gen Y S) :
  a <= b ->
  I a st ->
  (forall j st, a <= j < b -> I j st -> total P (I (j + 1)) (body st j)) ->
  total P (I b) (for_state (range a b) st body).
Proof.
  intros Hab. remember (Z.to_nat (b - a)) as n eqn:Hn.
  revert a st Hab Hn. induction n as [|n IH]; intros a st Hab Hn H0 Hstep.
  - assert (a = b) by lia. subst a. rewrite range_nil by lia.
    apply total_ret; assumption.
  - rewrite range_cons by lia. simpl.
    eapply total_bind; [apply Hstep; [lia | exact H0]|].
    intros st' Hst'. apply IH; try lia; [exact Hst'|].
    intros j st2 Hj. apply Hstep. lia.
Qed.

(** Where a yielded value comes from. *)
Lemma in_bind {A B} (m : gen Y A) (f : A -> gen Y B) (y : Y) :
  In y (yielded (bind m f)) <->
  In y (yielded m) \/ exists a, snd m = inr a /\ In y (yielded (f a)).
Proof.
  destruct m as [ys [e|a]]; simpl.
  - split; [tauto|]. intros [H|(a & Ha & _)]; [exact H | discriminate].
  - destruct (f a) as [zs r] eqn:Hf. simpl. rewrite in_app_iff. split.
    + intros [H|H]; [left; exact H|]. right. exists a. rewrite Hf. auto.
    + intros [H|(a' & Ha & H)]; [left; exact H|]. injection Ha as <-.
      rewrite Hf in H. right; exact H.
Qed.

Lemma in_for_each {X} (xs : list X) (body : X -> gen Y unit) (y : Y) :
  In y (yielded (for_each xs body)) ->
  exists x, In x xs /\ In y (yielded (body x)).
Proof.
  induction xs as [|x xs IH]; simpl; [tauto|].
  rewrite in_bind. intros [H|(_ & _ & H)].
  - exists x; auto.
  - destruct (IH H) as (x' & Hx & Hy). exists x'; auto.
Qed.

Lemma for_each_in {X} (xs : list X) (body : X -> gen Y unit) (x : X) (y : Y) :
  (forall x', In x' xs -> raised (body x') = None) ->
  In x xs -> In y (yielded (body x)) -> In y (yielded (for_each xs body)).
Proof.
  induction xs as [|x0 xs IH]; simpl; [tauto|].
  intros Hok [->|Hx] Hy; rewrite in_bind.
  - left; exact Hy.
  - right. specialize (Hok x0 (or_introl eq_refl)) as H0.
    unfold raised in H0. destruct (snd (body x0)) as [e|[]] eqn:Hs;
      [discriminate|].
    exists tt. split; [reflexivity|]. apply IH; auto.
Qed.

Lemma total_raised {A} (P : Y -> Prop) (Q : A -> Prop) (g : gen Y A) :
  total P Q g -> raised g = None.
Proof. intros [_ (a & Ha & _)]. unfold raised. rewrite Ha. reflexivity. Qed.

Lemma total_in {A} (P : Y -> Prop) (Q : A -> Prop) (g : gen Y A) (y : Y) :
  total P Q g -> In y (yielded g) -> P y.
Proof. intros [H _] Hy. rewrite Forall_forall in H. auto. Qed.

(** A loop with [break] reaches an element when every element before it
    ends its iteration normally. *)
Lemma for_break_in {X} (pre post : list X) (x : X) (body : X -> gen Y ctl)
    (y : Y) :
  (forall x', In x' pre -> snd (body x') = inr Next) ->
  In y (yielded (body x)) ->
  In y (yielded (for_break (pre ++ x :: post) body)).
Proof.
  induction pre as [|x0 pre IH]; simpl; intros Hpre Hy; rewrite in_bind.
  - left; exact Hy.
  - right. exists Next. split; [apply Hpre; auto|]. apply IH; auto.
Qed.

(** A loop over [range(a, b)]: what iteration [j] yields from every
    state the invariant allows, the loop yields. *)
Lemma for_state_range_in {S} (P : Y -> Prop) (I : Z -> S -> Prop)
    (a b : Z) (st : S) (body : S -> Z -> gen Y S) (j : Z) (y : Y) :
  I a st ->
  (forall j st, a <= j < b -> I j st -> total P (I (j + 1)) (body st j)) ->
  a <= j < b ->
  (forall st, I j st -> In y (yielded (body st j))) ->
  In y (yielded (for_state (range a b) st body)).
Proof.
  remember (Z.to_nat (b - a)) as n eqn:Hn.
  revert a st Hn. induction n as [|n IH]; intros a st Hn H0 Hstep Hj Hy;
    [lia|].
  rewrite range_cons by lia. simpl. rewrite in_bind.
  destruct (Z.eq_dec j a) as [->|Hne].
  - left. apply Hy, H0.
  - right. destruct (Hstep a st ltac:(lia) H0) as [_ (st' & Hs & Hst')].
    exists st'. split; [exact Hs|].
    apply IH; try lia; auto. intros j' st2 Hj'. apply Hstep. lia.
Qed.
End GenRules.

Lemma bind_lift_inr {Y A B} (a : A) (f : A -> gen Y B) :
  bind (lift (inr a)) f = f a.
Proof. unfold bind, lift. destruct (f a); reflexivity. Qed.


Lemma bind_ret {Y A B} (a : A) (f : A -> gen Y B) : bind (ret a) f = f a.
Proof. apply bind_lift_inr. Qed.

(** ** The table [COMPLEMENT] *)

Lemma COMPLEMENT_cases (ub db : str) :
  dict_getitem COMPLEMENT ub = inr db ->
  (ub = py "T" /\ db = py "A") \/ (ub = py "A" /\ db = py "T") \/
  (ub = py "C" /\ db = py "G") \/ (ub = py "G" /\ db = py "C").
Proof.
  unfold dict_getitem, COMPLEMENT. cbn [find fst snd].
  destruct (str_eqb (py "T") ub) eqn:HT;
    [apply str_eqb_eq in HT; subst ub; simpl; intros H; injection H as <-; auto|].
  destruct (str_eqb (py "A") ub) eqn:HA;
    [apply str_eqb_eq in HA; subst ub; simpl; intros H; injection H as <-; auto|].
  destruct (str_eqb (py "C") ub) eqn:HC;
    [apply str_eqb_eq in HC; subst ub; simpl; intros H; injection H as <-; auto|].
  destruct (str_eqb (py "G") ub) eqn:HG;
    [apply str_eqb_eq in HG; subst ub; simpl; intros H; injection H as <-; auto 6|].
  discriminate.
Qed.

Lemma COMPLEMENT_neq (ub db : str) :
  dict_getitem COMPLEMENT ub = inr db -> str_eqb db ub = false.
Proof.
  intros H.
  destruct (COMPLEMENT_cases _ _ H) as [[-> ->]|[[-> ->]|[[-> ->]|[-> ->]]]];
    reflexivity.
Qed.

Lemma COMPLEMENT_one_char (ub db : str) :
  dict_getitem COMPLEMENT ub = inr db ->
  exists c d, ub = [c] /\ db = [d].
Proof.
  intros H.
  destruct (COMPLEMENT_cases _ _ H) as [[-> ->]|[[-> ->]|[[-> ->]|[-> ->]]]];
    do 2 eexists; split; reflexivity.
Qed.

Lemma COMPLEMENT_missing (ub : str) :
  ~ In ub (map fst COMPLEMENT) ->
  dict_getitem COMPLEMENT ub = inl (KeyError ub).
Proof.
  intros H. unfold dict_getitem.
  destruct (find _ COMPLEMENT) as [[k v]|] eqn:Hf; [|reflexivity].
  apply find_some in Hf. destruct Hf as [Hin Hk]. simpl in Hk.
  apply str_eqb_eq in Hk. subst k. exfalso. apply H.
  apply in_map_iff. exists (ub, v). auto.
Qed.

(** ** The lookback queue *)

Lemma evict_sorted (q : list Z) (m : Z) :
  StronglySorted Z.lt q -> StronglySorted Z.lt (evict q m).
Proof.
  induction 1 as [|t q Hq IH Ht]; simpl; [constructor|].
  destruct (t <? m); [exact IH | constructor; assumption].
Qed.

Lemma in_evict (q : list Z) (m t : Z) :
  StronglySorted Z.lt q -> (In t (evict q m) <-> In t q /\ m <= t).
Proof.
  induction 1 as [|x q Hq IH Hx]; simpl; [tauto|].
  rewrite Forall_forall in Hx.
  destruct (Z.ltb_spec x m) as [Hlt|Hge].
  - rewrite IH. split; [tauto|]. intros [[->|H] Hm]; [lia | auto].
  - simpl. split.
    + intros [->|H]; [auto with zarith|]. specialize (Hx _ H). split; [auto | lia].
    + tauto.
Qed.

Lemma sorted_snoc (q : list Z) (j : Z) :
  StronglySorted Z.lt q -> (forall t, In t q -> t < j) ->
  StronglySorted Z.lt (q ++ [j]).
Proof.
  induction 1 as [|x q Hq IH Hx]; simpl; intros Hj.
  - repeat constructor.
  - constructor; [apply IH; auto|].
    apply Forall_app. split; [exact Hx|]. repeat constructor. auto.
Qed.

Lemma sorted_before (pre post : list Z) (t x : Z) :
  StronglySorted Z.lt (pre ++ t :: post) -> In x pre -> x < t.
Proof.
  induction pre as [|y pre IH]; simpl; [tauto|].
  intros H [->|Hx].
  - apply StronglySorted_inv in H. destruct H as [_ H].
    rewrite Forall_forall in H. apply H, in_elt.
  - apply StronglySorted_inv in H. destruct H as [H _]. auto.
Qed.

(** ** The unfiltered scan *)

Section Scan.
Variables (self : FindTALTask) (s sid ub db : str).
Hypothesis Hseq : sequence self = Some s.
Hypothesis Hid : sequence_id self = Some sid.
Hypothesis Hcomp : dict_getitem COMPLEMENT ub = inr db.

Lemma create_returns (cut up_pos down_pos spacer_length : Z) (cu cd : str) :
  getitem s up_pos = inr cu -> getitem s down_pos = inr cd ->
  exists r, _create_tal_pair self cut up_pos down_pos spacer_length = inr r.
Proof.
  intros Hu Hd. unfold _create_tal_pair, self_sequence, self_sequence_id.
  rewrite Hseq, Hu, Hd, Hid. eexists; reflexivity.
Qed.

Lemma expand_total (t j : Z) :
  0 <= t < j -> j < len s ->
  getitem s t = inr ub -> getitem s j = inr db ->
  j - max_dist self <= t <= j - min_dist self ->
  total (scan_row self s ub db) (fun _ => True) (expand self t j).
Proof.
  intros Ht Hj Hgt Hgj Hd. unfold expand.
  apply total_for_each. intros sl Hsl. apply in_range in Hsl.
  apply total_for_each. intros cut Hcut. apply in_range in Hcut.
  destruct (create_returns cut t j sl _ _ Hgt Hgj) as [r Hr].
  rewrite Hr, bind_lift_inr. apply total_yield; [|exact I].
  exists cut, t, j, sl. repeat split; try assumption; lia.
Qed.

Lemma expand_in (t j cut spacer_length : Z) (cu cd : str) :
  getitem s t = inr cu -> getitem s j = inr cd ->
  min_spacer self <= spacer_length <= max_spacer self ->
  t + min_dist self / 2 <= cut < j - min_dist self / 2 ->
  exists r, _create_tal_pair self cut t j spacer_length = inr r /\
            In r (yielded (expand self t j)).
Proof.
  intros Hgt Hgj Hsl Hcut.
  assert (Hall : forall c sl, raised
            (r <- lift (_create_tal_pair self c t j sl) ;; yield r) = None).
  { intros c sl. destruct (create_returns c t j sl _ _ Hgt Hgj) as [r Hr].
    rewrite Hr, bind_lift_inr. reflexivity. }
  destruct (create_returns cut t j spacer_length _ _ Hgt Hgj) as [r Hr].
  exists r. split; [exact Hr|]. unfold expand.
  apply for_each_in with (x := spacer_length).
  - intros sl _. eapply total_raised with (P := fun _ => True).
    apply total_for_each. intros c _.
    destruct (create_returns c t j sl _ _ Hgt Hgj) as [r' Hr'].
    rewrite Hr', bind_lift_inr. apply total_yield; exact I.
  - apply in_range. lia.
  - apply for_each_in with (x := cut).
    + intros c _. apply Hall.
    + apply in_range. lia.
    + rewrite Hr, bind_lift_inr. left; reflexivity.
Qed.

Lemma scan_step_total (q : list Z) (j : Z) :
  0 <= j < len s -> queue_inv self s ub j q ->
  total (scan_row self s ub db) (queue_inv self s ub (j + 1))
        (scan_step self s ub q j).
Proof.
  intros Hj (Hsorted & Hin & Hall). unfold scan_step.
  destruct (getitem_nonneg s j Hj) as [c Hc]. rewrite Hc, bind_lift_inr.
  destruct (str_eqb [c] ub) eqn:Hub.
  - apply str_eqb_eq in Hub. apply total_ret. split; [|split].
    + apply sorted_snoc; [exact Hsorted|]. intros t Ht. apply Hin in Ht. lia.
    + intros t Ht. apply in_app_or in Ht. destruct Ht as [Ht|[<-|[]]].
      * apply Hin in Ht. split; [lia | tauto].
      * split; [lia | rewrite Hc, Hub; reflexivity].
    + intros t Ht Hg Hd. apply in_or_app.
      destruct (Z.eq_dec t j) as [->|Hne]; [right; left; reflexivity|].
      left. apply Hall; [lia | exact Hg | lia].
  - assert (Hnotj : forall t, getitem s t = inr ub -> t <> j).
    { intros t Hg ->. rewrite Hc in Hg. injection Hg as <-.
      rewrite str_eqb_refl in Hub. discriminate. }
    rewrite Hcomp, bind_lift_inr. destruct (str_eqb [c] db) eqn:Hdb.
    + apply str_eqb_eq in Hdb.
      pose proof (evict_sorted q (j - max_dist self) Hsorted) as Hes.
      eapply total_bind with (R := fun _ => True).
      * apply total_for_break. intros t Ht.
        apply in_evict in Ht; [|exact Hsorted]. destruct Ht as [Ht Hlo].
        destruct (Hin t Ht) as [Hr Hg].
        destruct (Z.leb_spec t (j - min_dist self)) as [Hle|Hgt].
        -- eapply total_bind with (R := fun _ => True).
           ++ apply expand_total; try assumption; try lia.
              rewrite Hc, Hdb; reflexivity.
           ++ intros _ _. apply total_ret. exact I.
        -- apply total_ret. exact I.
      * intros _ _. apply total_ret. split; [exact Hes | split].
        -- intros t Ht. apply in_evict in Ht; [|exact Hsorted].
           destruct Ht as [Ht _]. apply Hin in Ht. split; [lia | tauto].
        -- intros t Ht Hg Hd. apply in_evict; [exact Hsorted|].
           specialize (Hnotj t Hg). split; [apply Hall; [lia | exact Hg | lia] | lia].
    + apply total_ret. split; [exact Hsorted | split].
      * intros t Ht. apply Hin in Ht. split; [lia | tauto].
      * intros t Ht Hg Hd. specialize (Hnotj t Hg).
        apply Hall; [lia | exact Hg | lia].
Qed.

Lemma queue_inv_init : queue_inv self s ub 0 [].
Proof.
  split; [constructor | split]; [intros t [] | intros t Ht; lia].
Qed.

Lemma scan_body_total :
  total (scan_row self s ub db) (fun _ => True) (scan_body self ub).
Proof.
  unfold scan_body, self_sequence. rewrite Hseq, bind_lift_inr.
  eapply total_bind.
  - apply total_for_state_range with (I := queue_inv self s ub).
    + unfold len; lia.
    + apply queue_inv_init.
    + intros j q Hj Hq. apply scan_step_total; assumption.
  - intros _ _. apply total_ret. exact I.
Qed.

(** Every anchor pair and cut site inside the bounds is emitted. *)
Lemma scan_body_complete (cut t j spacer_length : Z) :
  0 <= t < j -> j < len s ->
  getitem s t = inr ub -> getitem s j = inr db ->
  j - max_dist self <= t <= j - min_dist self ->
  min_spacer self <= spacer_length <= max_spacer self ->
  t + min_dist self / 2 <= cut < j - min_dist self / 2 ->
  exists r, _create_tal_pair self cut t j spacer_length = inr r /\
            In r (yielded (scan_body self ub)).
Proof.
  intros Ht Hj Hgt Hgj Hd Hsl Hcut.
  destruct (expand_in t j cut spacer_length _ _ Hgt Hgj Hsl Hcut)
    as (r & Hr & Hexp).
  exists r. split; [exact Hr|].
  unfold scan_body, self_sequence. rewrite Hseq, bind_lift_inr.
  apply in_bind. left.
  apply for_state_range_in
    with (P := scan_row self s ub db) (I := queue_inv self s ub) (j := j).
  - apply queue_inv_init.
  - intros j' q Hj' Hq. apply scan_step_total; assumption.
  - lia.
  - intros q (Hsorted & Hin & Hall). unfold scan_step.
    rewrite Hgj, bind_lift_inr, (COMPLEMENT_neq _ _ Hcomp).
    rewrite Hcomp, bind_lift_inr, str_eqb_refl.
    apply in_bind. left.
    assert (Ht' : In t (evict q (j - max_dist self))).
    { apply in_evict; [exact Hsorted|]. split; [|lia].
      apply Hall; [lia | exact Hgt | lia]. }
    pose proof (evict_sorted q (j - max_dist self) Hsorted) as Hes.
    destruct (in_split _ _ Ht') as (pre & post & Heq).
    rewrite Heq in Hes |- *. apply for_break_in.
    + intros x Hx. pose proof (sorted_before _ _ _ _ Hes Hx) as Hlt.
      assert (Hxq : In x (evict q (j - max_dist self)))
        by (rewrite Heq; apply in_or_app; auto).
      apply in_evict in Hxq; [|exact Hsorted]. destruct Hxq as [Hxq Hxlo].
      destruct (Hin x Hxq) as [Hxr Hxg].
      replace (x <=? j - min_dist self) with true by lia.
      destruct (expand_total x j) as [_ ([] & Hs & _)]; try assumption; try lia.
      fold (expand self x j). unfold bind.
      destruct (expand self x j) as [ys res]. simpl in Hs. subst res. reflexivity.
    + replace (t <=? j - min_dist self) with true by lia.
      apply in_bind. left. exact Hexp.
Qed.
End Scan.

(** ** The filtered enumeration *)

Lemma findAll_getitem (s b : str) (c : ascii) (lo hi i : Z) :
  b = [c] -> In i (findAll s b lo (Some hi)) -> getitem s i = inr b.
Proof.
  intros -> H. apply in_findAll in H. destruct H as [_ H].
  apply slice_one_getitem. exact H.
Qed.

(** An occurrence found from a start of [-1] or more is not negative: the
    slice [s[-1:0]] is empty. *)
Lemma findAll_nonneg (s b : str) (c : ascii) (lo hi i : Z) :
  b = [c] -> -1 <= lo -> In i (findAll s b lo (Some hi)) -> 0 <= i.
Proof.
  intros -> Hlo H. apply in_findAll in H. destruct H as [Hi H].
  destruct (Z.eq_dec i (-1)) as [->|Hne]; [|lia].
  exfalso. unfold slice in H. apply firstn_skipn_one in H.
  destruct H as [_ H]. unfold clamp, len in H. simpl in H. lia.
Qed.

Section Filtered.
Variables (self : FindTALTask) (s sid ub db : str) (fb : Z).
Hypothesis Hseq : sequence self = Some s.
Hypothesis Hid : sequence_id self = Some sid.
Hypothesis Hcomp : dict_getitem COMPLEMENT ub = inr db.

Lemma filtered_body_skip :
  fb - max_dist self / 2 < 0 \/ fb + (max_dist self + 1) / 2 + 1 > len s ->
  filtered_body self fb ub db = ([], inr tt).
Proof.
  intros H. unfold filtered_body, self_sequence. rewrite Hseq.
  destruct (Z.ltb_spec (fb - max_dist self / 2) 0) as [Hlt|Hge].
  - rewrite bind_ret. reflexivity.
  - rewrite bind_lift_inr, bind_ret.
    replace (_ >? _) with true by lia. reflexivity.
Qed.

Lemma filtered_body_total :
  total (filtered_row self s fb ub db) (fun _ => True)
        (filtered_body self fb ub db).
Proof.
  destruct (COMPLEMENT_one_char _ _ Hcomp) as (c & d & Hub & Hdb).
  unfold filtered_body, self_sequence. rewrite Hseq.
  destruct (Z.ltb_spec (fb - max_dist self / 2) 0) as [Hlt|Hge].
  { rewrite bind_ret. apply total_ret. exact I. }
  rewrite bind_lift_inr, bind_ret.
  destruct (Z.gtb_spec (fb + (max_dist self + 1) / 2 + 1) (len s)) as [Hgt|Hle].
  { apply total_ret. exact I. }
  rewrite bind_lift_inr.
  apply total_for_each. intros up Hup.
  apply total_for_each. intros down Hdown.
  pose proof (findAll_getitem _ _ _ _ _ _ Hub Hup) as Hgu.
  pose proof (findAll_getitem _ _ _ _ _ _ Hdb Hdown) as Hgd.
  rewrite Hgu, bind_lift_inr, str_eqb_refl. unfold assert_ at 1.
  rewrite bind_ret, Hgd, bind_lift_inr, str_eqb_refl. unfold assert_.
  rewrite bind_ret.
  apply total_for_each. intros sl Hsl. apply in_range in Hsl.
  destruct (create_returns self s sid Hseq Hid fb up down sl _ _ Hgu Hgd)
    as [r Hr].
  rewrite Hr, bind_lift_inr. apply total_yield; [|exact I].
  exists up, down, sl. repeat split; try assumption; lia.
Qed.
End Filtered.

(** ** The whole enumeration *)

Lemma valid_base_complement (b : str) :
  valid_base b -> exists d, dict_getitem COMPLEMENT b = inr d.
Proof.
  unfold valid_base. simpl.
  intros [<-|[<-|[<-|[<-|[]]]]]; eexists; reflexivity.
Qed.


Section Enumeration.
Variables (self : FindTALTask) (s sid : str).
Hypothesis Hseq : sequence self = Some s.
Hypothesis Hid : sequence_id self = Some sid.

Lemma upstream_body_total (ub db : str) :
  dict_getitem COMPLEMENT ub = inr db ->
  total (fun r => match filter_base self with
                  | Some fb => filtered_row self s fb ub db r
                  | None => scan_row self s ub db r
                  end)
        (fun _ => True) (upstream_body self ub).
Proof.
  intros Hc. unfold upstream_body. rewrite Hc, bind_lift_inr.
  destruct (filter_base self) as [fb|].
  - eapply filtered_body_total; eassumption.
  - eapply scan_body_total; eassumption.
Qed.

Lemma upstream_body_invalid (ub : str) :
  ~ valid_base ub -> upstream_body self ub = ([], inl (KeyError ub)).
Proof.
  intros H. unfold upstream_body.
  rewrite (COMPLEMENT_missing ub H). reflexivity.
Qed.

Lemma find_sound (r : row) :
  In r (yielded (_find_tal_pairs_for_seq self)) -> emitted_row self s r.
Proof.
  intros H. apply in_for_each in H. destruct H as (ub & Hub & Hr).
  destruct (dict_getitem COMPLEMENT ub) as [e|db] eqn:Hc.
  - unfold upstream_body in Hr. rewrite Hc in Hr. destruct Hr.
  - exists ub, db. split; [exact Hub | split; [exact Hc|]].
    exact (total_in _ _ _ r (upstream_body_total ub db Hc) Hr).
Qed.

Lemma find_total :
  Forall valid_base (upstream_bases self) ->
  total (emitted_row self s) (fun _ => True) (_find_tal_pairs_for_seq self).
Proof.
  intros Hv. rewrite Forall_forall in Hv. unfold _find_tal_pairs_for_seq.
  apply total_for_each. intros ub Hub.
  destruct (valid_base_complement ub (Hv ub Hub)) as [db Hc].
  eapply total_weaken; [apply (upstream_body_total ub db Hc) | | auto].
  intros r Hr. exists ub, db. auto.
Qed.

(** The enumeration stops with [KeyError] at the first entry of
    [upstream_bases] that is not a key of [COMPLEMENT]. *)
Lemma find_KeyError (pre post : list str) (b : str) :
  upstream_bases self = pre ++ b :: post ->
  Forall valid_base pre -> ~ valid_base b ->
  raised (_find_tal_pairs_for_seq self) = Some (KeyError b).
Proof.
  unfold _find_tal_pairs_for_seq. intros -> Hpre Hb.
  induction Hpre as [|x pre Hx Hpre IH]; simpl.
  - rewrite (upstream_body_invalid b Hb). reflexivity.
  - destruct (valid_base_complement x Hx) as [d Hd].
    destruct (upstream_body_total x d Hd) as [_ ([] & Hs & _)].
    unfold bind. destruct (upstream_body self x) as [ys res].
    simpl in Hs. subst res.
    destruct (for_each (pre ++ b :: post) (upstream_body self)) as [zs res].
    exact IH.
Qed.
End Enumeration.

(** ** The record builder *)

Lemma create_inv (self : FindTALTask) (cut up_pos down_pos spacer_length : Z)
    (r : row) :
  _create_tal_pair self cut up_pos down_pos spacer_length = inr r ->
  exists s cu cd,
    sequence self = Some s /\
    getitem s up_pos = inr cu /\ getitem s down_pos = inr cd /\
    Cut_Site r = cut /\ TAL1_start r = up_pos + 1 /\
    TAL2_start r = down_pos - 1 /\ Spacer_length r = spacer_length /\
    TAL1_length r =
      len (slice s (tal1_start up_pos) (tal1_end cut spacer_length)) /\
    TAL2_length r =
      len (slice s (tal2_start cut spacer_length) (tal2_end down_pos)) /\
    exists mid, Plus_strand_sequence r = cu ++ mid ++ cd.
Proof.
  unfold _create_tal_pair, self_sequence, self_sequence_id.
  destruct (sequence self) as [s|]; [|discriminate].
  destruct (getitem s up_pos) as [e|cu] eqn:Hu; [discriminate|].
  destruct (getitem s down_pos) as [e|cd] eqn:Hd; [discriminate|].
  destruct (sequence_id self) as [sid|]; [|discriminate].
  intros H. injection H as <-. exists s, cu, cd. simpl.
  unfold tal1_start, tal2_end. repeat (split; [assumption || reflexivity|]).
  exists (py " " ++ slice s (up_pos + 1) (tal1_end cut spacer_length)
            ++ py " "
            ++ lower (slice s (tal1_end cut spacer_length)
                        (tal2_start cut spacer_length))
            ++ py " " ++ slice s (tal2_start cut spacer_length) down_pos
            ++ py " ").
  repeat rewrite <- app_assoc. reflexivity.
Qed.

Lemma len_slice (s : str) (a b : Z) :
  0 <= a <= b -> b <= len s -> len (slice s a b) = b - a.
Proof.
  intros Ha Hb. unfold slice, clamp, len in *.
  replace (a <? 0) with false by lia. replace (b <? 0) with false by lia.
  rewrite length_firstn, length_skipn. lia.
Qed.

Lemma len_nonneg {A} (s : list A) : 0 <= len s.
Proof. unfold len; lia. Qed.

(** C3, as the code has it: for anchors that index the sequence, the
    builder returns a row whose fields are computed from
    [tal1_start = up_pos + 1], [tal1_end = cut - spacer_length//2],
    [tal2_start = cut + (spacer_length+1)//2 - 1] and [tal2_end = down_pos];
    the 'TAL2 start' field is [tal2_end - 1 = down_pos - 1], the index just
    before the downstream anchor and never the anchor's own index; it is
    not [tal2_start], with which it coincides only when
    [down_pos = cut + (spacer_length+1)//2]. *)
Theorem C3_create_tal_pair_fields (self : FindTALTask) (s sid cu cd : str)
    (cut up_pos down_pos spacer_length : Z) :
  sequence self = Some s -> sequence_id self = Some sid ->
  getitem s up_pos = inr cu -> getitem s down_pos = inr cd ->
  tal1_start up_pos = up_pos + 1 /\
  tal1_end cut spacer_length = cut - spacer_length / 2 /\
  tal2_start cut spacer_length = cut + (spacer_length + 1) / 2 - 1 /\
  tal2_end down_pos = down_pos /\
  exists r,
    _create_tal_pair self cut up_pos down_pos spacer_length = inr r /\
    Sequence_Name r = sid /\
    Cut_Site r = cut /\
    Spacer_length r = spacer_length /\
    TAL1_start r = tal1_start up_pos /\
    TAL1_length r =
      len (slice s (tal1_start up_pos) (tal1_end cut spacer_length)) /\
    TAL2_length r =
      len (slice s (tal2_start cut spacer_length) (tal2_end down_pos)) /\
    Spacer_range r =
      str_of_Z (tal1_end cut spacer_length) ++ py "-"
        ++ str_of_Z (tal2_start cut spacer_length) /\
    Plus_strand_sequence r =
      cu ++ py " "
        ++ slice s (tal1_start up_pos) (tal1_end cut spacer_length) ++ py " "
        ++ lower (slice s (tal1_end cut spacer_length)
                    (tal2_start cut spacer_length)) ++ py " "
        ++ slice s (tal2_start cut spacer_length) (tal2_end down_pos) ++ py " "
        ++ cd /\
    TAL2_start r = tal2_end down_pos - 1 /\
    (TAL2_start r = tal2_start cut spacer_length <->
     down_pos = cut + (spacer_length + 1) / 2) /\
    TAL2_start r = down_pos - 1 /\
    TAL2_start r <> down_pos.
Proof.
  intros Hs Hid Hu Hd. repeat (split; [reflexivity|]).
  unfold _create_tal_pair, self_sequence, self_sequence_id.
  rewrite Hs, Hu, Hd, Hid. eexists. split; [reflexivity|]. simpl.
  repeat (split; [reflexivity|]). unfold tal2_end, tal2_start.
  split; [lia | split; lia].
Qed.

Lemma C3_witness :
  exists r,
    _create_tal_pair test_task_filtered 31 3 58 14 = inr r /\
    TAL1_start r = 4 /\ TAL2_start r = 57 /\
    tal2_start 31 14 = 37 /\ Spacer_range r = py "24-37".
Proof.
  destruct (C3_create_tal_pair_fields test_task_filtered test_sequence
              (py "seq1") (py "T") (py "A") 31 3 58 14
              eq_refl eq_refl eq_refl eq_refl)
    as (_ & _ & _ & _ & r & Hr & _ & _ & _ & H1 & _ & _ & Hsr & _ & H2 & _).
  exists r. split; [exact Hr|]. rewrite H1, H2, Hsr.
  repeat split; reflexivity.
Defined.

(** C3 as the specification states it reads [tal2_end - 1] as the index of
    the downstream anchor. On the row of the tests' sequence built from the
    anchors 3 and 58 the field is 57, not 58. *)
Lemma C3_counterexample :
  ~ (forall r,
       _create_tal_pair test_task_filtered 31 3 58 14 = inr r ->
       TAL2_start r = tal2_end 58 - 1 /\ TAL2_start r = 58).
Proof.
  intros H.
  destruct (create_returns test_task_filtered test_sequence (py "seq1")
              eq_refl eq_refl 31 3 58 14 (py "T") (py "A") eq_refl eq_refl)
    as [r0 Hr0].
  destruct (H r0 Hr0) as [_ H58].
  destruct (create_inv _ _ _ _ _ _ Hr0)
    as (_ & _ & _ & _ & _ & _ & _ & _ & H57 & _).
  lia.
Qed.

(** ** Unfiltered mode *)

(** C1: without a filter, every row comes from anchors whose distance is
    between [min_dist = 2*array_min + min_spacer] and
    [max_dist = 2*array_max + max_spacer] and from a spacer length between
    [min_spacer] and [max_spacer]; and an upstream anchor exactly
    [max_dist] before a downstream one is still in the queue, so that each
    cut site and spacer length in range gives a row for that pair. *)
Theorem C1_unfiltered_bounds (self : FindTALTask) (s sid : str) :
  filter_base self = None ->
  sequence self = Some s -> sequence_id self = Some sid ->
  initialised self ->
  (forall r, In r (yielded (_find_tal_pairs_for_seq self)) ->
     exists cut up_pos down_pos spacer_length,
       _create_tal_pair self cut up_pos down_pos spacer_length = inr r /\
       2 * array_min self + min_spacer self <= down_pos - up_pos /\
       down_pos - up_pos <= 2 * array_max self + max_spacer self /\
       min_spacer self <= spacer_length <= max_spacer self) /\
  (forall upstream_base downstream_base t j cut spacer_length,
     Forall valid_base (upstream_bases self) ->
     In upstream_base (upstream_bases self) ->
     dict_getitem COMPLEMENT upstream_base = inr downstream_base ->
     0 <= t < j -> j < len s ->
     getitem s t = inr upstream_base -> getitem s j = inr downstream_base ->
     t = j - max_dist self ->
     min_dist self <= max_dist self ->
     min_spacer self <= spacer_length <= max_spacer self ->
     t + min_dist self / 2 <= cut < j - min_dist self / 2 ->
     exists r,
       _create_tal_pair self cut t j spacer_length = inr r /\
       In r (yielded (_find_tal_pairs_for_seq self))).
Proof.
  intros Hf Hs Hid [HM Hm]. split.
  - intros r Hr. destruct (find_sound self s sid Hs Hid r Hr)
      as (ub & db & _ & _ & Hrow).
    rewrite Hf in Hrow.
    destruct Hrow as (cut & t & j & sl & Hc & _ & _ & _ & _ & Hd & Hsl & _).
    exists cut, t, j, sl. rewrite <- HM, <- Hm.
    repeat split; try assumption; lia.
  - intros ub db t j cut sl Hv Hub Hc Ht Hj Hgt Hgj Heq Hmd Hsl Hcut.
    destruct (scan_body_complete self s sid ub db Hs Hid Hc cut t j sl)
      as (r & Hr & Hin); try assumption; try lia.
    exists r. split; [exact Hr|].
    unfold _find_tal_pairs_for_seq. apply for_each_in with (x := ub).
    + intros b Hb. rewrite Forall_forall in Hv.
      destruct (valid_base_complement b (Hv b Hb)) as [d Hd].
      exact (total_raised _ _ _
               (upstream_body_total self s sid Hs Hid b d Hd)).
    + exact Hub.
    + unfold upstream_body. rewrite Hc, bind_lift_inr, Hf. exact Hin.
Qed.

Lemma C1_witness :
  exists r,
    _create_tal_pair boundary_task 1 0 4 2 = inr r /\
    In r (yielded (_find_tal_pairs_for_seq boundary_task)).
Proof.
  destruct (C1_unfiltered_bounds boundary_task (py "TCCCA") (py "seq1")
              eq_refl eq_refl eq_refl (conj eq_refl eq_refl)) as [_ H].
  apply (H (py "T") (py "A") 0 4 1 2).
  - repeat constructor.
  - left; reflexivity.
  - reflexivity.
  - lia.
  - vm_compute; reflexivity.
  - reflexivity.
  - reflexivity.
  - reflexivity.
  - vm_compute; discriminate.
  - vm_compute; split; discriminate.
  - vm_compute; split; [discriminate | reflexivity].
Defined.

(** C10: without a filter, the cut loop of an accepted anchor pair is empty
    unless the anchors are at least [2*(min_dist//2) + 1] apart, so every
    row comes from anchors that far apart; when [min_dist] is even, a pair
    at distance exactly [min_dist] passes the distance test and yields
    nothing. *)
Theorem C10_cut_range_needs_odd_slack (self : FindTALTask) (s sid : str) :
  filter_base self = None ->
  sequence self = Some s -> sequence_id self = Some sid ->
  (forall t j, j - t < 2 * (min_dist self / 2) + 1 ->
     range (t + min_dist self / 2) (j - min_dist self / 2) = [] /\
     expand self t j = ([], inr tt)) /\
  (forall r, In r (yielded (_find_tal_pairs_for_seq self)) ->
     exists cut up_pos down_pos spacer_length,
       _create_tal_pair self cut up_pos down_pos spacer_length = inr r /\
       down_pos - up_pos >= 2 * (min_dist self / 2) + 1) /\
  (Z.even (min_dist self) = true ->
   forall t j, j - t = min_dist self ->
     t <= j - min_dist self /\ expand self t j = ([], inr tt)).
Proof.
  intros Hf Hs Hid.
  assert (Hempty : forall t j, j - t < 2 * (min_dist self / 2) + 1 ->
            range (t + min_dist self / 2) (j - min_dist self / 2) = [] /\
            expand self t j = ([], inr tt)).
  { intros t j Hd.
    assert (Hr : range (t + min_dist self / 2) (j - min_dist self / 2) = [])
      by (apply range_nil; lia).
    split; [exact Hr|]. unfold expand. rewrite Hr.
    induction (range (min_spacer self) (max_spacer self + 1)) as [|x xs IH];
      [reflexivity|].
    cbn [for_each] in *. rewrite bind_ret. exact IH. }
  split; [exact Hempty | split].
  - intros r Hr. destruct (find_sound self s sid Hs Hid r Hr)
      as (ub & db & _ & _ & Hrow).
    rewrite Hf in Hrow.
    destruct Hrow as (cut & t & j & sl & Hc & _ & _ & _ & _ & _ & _ & Hcut).
    exists cut, t, j, sl. split; [exact Hc | lia].
  - intros Hev t j Hd. split; [lia|].
    apply Hempty. apply Z.even_spec in Hev. destruct Hev as [k Hk].
    rewrite Hk in *. replace (2 * k / 2) with k by dlia. lia.
Qed.

Lemma C10_witness :
  (range (0 + min_dist even_task / 2) (4 - min_dist even_task / 2) = [] /\
   expand even_task 0 4 = ([], inr tt)) /\
  0 <= 4 - min_dist even_task /\ expand even_task 0 4 = ([], inr tt).
Proof.
  destruct (C10_cut_range_needs_odd_slack even_task (py "TCCCA") (py "seq1")
              eq_refl eq_refl eq_refl) as (H1 & _ & H3).
  split.
  - apply H1. vm_compute. reflexivity.
  - apply (H3 eq_refl 0 4). reflexivity.
Defined.

(** ** Rows of the examples *)

Lemma test_row_emitted :
  exists r,
    _create_tal_pair test_task_filtered 31 3 58 14 = inr r /\
    In r (yielded (_find_tal_pairs_for_seq test_task_filtered)).
Proof.
  destruct (create_returns test_task_filtered test_sequence (py "seq1")
              eq_refl eq_refl 31 3 58 14 (py "T") (py "A") eq_refl eq_refl)
    as [r0 Hr0].
  exists r0. split; [exact Hr0|].
  vm_compute in Hr0. injection Hr0 as <-. vm_compute.
  do 30 right. left. reflexivity.
Qed.

Lemma wide_row_emitted :
  exists r,
    _create_tal_pair wide_spacer_task 1 0 3 9 = inr r /\
    In r (yielded (_find_tal_pairs_for_seq wide_spacer_task)).
Proof.
  destruct (create_returns wide_spacer_task (py "TCCA") (py "seq1")
              eq_refl eq_refl 1 0 3 9 (py "T") (py "A") eq_refl eq_refl)
    as [r0 Hr0].
  exists r0. split; [exact Hr0|].
  vm_compute in Hr0. injection Hr0 as <-. vm_compute.
  do 8 right. left. reflexivity.
Qed.

(** ** Both modes *)

(** C7: in either mode a row comes from an upstream anchor holding the
    chosen upstream base and a downstream anchor holding its complement
    (A with T, C with G); the plus-strand string starts and ends with
    them. *)
Theorem C7_anchor_bases (self : FindTALTask) (s sid : str) :
  sequence self = Some s -> sequence_id self = Some sid ->
  forall r, In r (yielded (_find_tal_pairs_for_seq self)) ->
    exists upstream_base downstream_base cut up_pos down_pos spacer_length,
      In upstream_base (upstream_bases self) /\
      In (upstream_base, downstream_base)
         [ (py "T", py "A"); (py "A", py "T");
           (py "C", py "G"); (py "G", py "C") ] /\
      _create_tal_pair self cut up_pos down_pos spacer_length = inr r /\
      getitem s up_pos = inr upstream_base /\
      getitem s down_pos = inr downstream_base /\
      exists mid,
        Plus_strand_sequence r = upstream_base ++ mid ++ downstream_base.
Proof.
  intros Hs Hid r Hr.
  destruct (find_sound self s sid Hs Hid r Hr) as (ub & db & Hub & Hc & Hrow).
  assert (Hpair : In (ub, db) [ (py "T", py "A"); (py "A", py "T");
                                (py "C", py "G"); (py "G", py "C") ]).
  { destruct (COMPLEMENT_cases _ _ Hc) as [[-> ->]|[[-> ->]|[[-> ->]|[-> ->]]]];
      simpl; auto. }
  assert (Hquad : exists cut up down sl,
             _create_tal_pair self cut up down sl = inr r /\
             getitem s up = inr ub /\ getitem s down = inr db).
  { destruct (filter_base self) as [fb|].
    - destruct Hrow as (up & down & sl & Hcr & _ & _ & Hu & Hd & _).
      exists fb, up, down, sl. auto.
    - destruct Hrow as (cut & t & j & sl & Hcr & _ & _ & Hu & Hd & _).
      exists cut, t, j, sl. auto. }
  destruct Hquad as (cut & up & down & sl & Hcr & Hu & Hd).
  exists ub, db, cut, up, down, sl.
  repeat (split; [assumption|]).
  destruct (create_inv _ _ _ _ _ _ Hcr)
    as (s' & cu & cd & Hs' & Hu' & Hd' & _ & _ & _ & _ & _ & _ & mid & Hp).
  rewrite Hs in Hs'. injection Hs' as <-.
  rewrite Hu in Hu'. injection Hu' as <-.
  rewrite Hd in Hd'. injection Hd' as <-.
  exists mid. exact Hp.
Qed.

Lemma C7_witness :
  exists r,
    In r (yielded (_find_tal_pairs_for_seq test_task_filtered)) /\
    exists upstream_base downstream_base cut up_pos down_pos spacer_length,
      In upstream_base (upstream_bases test_task_filtered) /\
      In (upstream_base, downstream_base)
         [ (py "T", py "A"); (py "A", py "T");
           (py "C", py "G"); (py "G", py "C") ] /\
      _create_tal_pair test_task_filtered cut up_pos down_pos spacer_length
        = inr r /\
      getitem test_sequence up_pos = inr upstream_base /\
      getitem test_sequence down_pos = inr downstream_base /\
      exists mid,
        Plus_strand_sequence r = upstream_base ++ mid ++ downstream_base.
Proof.
  destruct test_row_emitted as (r0 & _ & Hin).
  exists r0. split; [exact Hin|].
  exact (C7_anchor_bases test_task_filtered test_sequence (py "seq1")
           eq_refl eq_refl r0 Hin).
Defined.

(** ** Filtered mode *)

(** C2, as the code has it: with a filter, every row is cut at
    [filter_base], its anchors are occurrences of the upstream base in
    [[filter_base - max_dist//2 - 1, filter_base - min_dist//2 - 1)] and of
    the downstream base in
    [[filter_base + (min_dist+1)//2, filter_base + (max_dist+1)//2 + 1)],
    its spacer length is between [min_spacer] and [max_spacer], and the
    anchors are between [min_dist + 2] and [max_dist + 1] apart: at least
    [min_dist], but up to one more than [max_dist]. *)
Theorem C2_filtered_bounds (self : FindTALTask) (s sid : str) (fb : Z) :
  filter_base self = Some fb ->
  sequence self = Some s -> sequence_id self = Some sid ->
  forall r, In r (yielded (_find_tal_pairs_for_seq self)) ->
    exists upstream_base downstream_base up_pos down_pos spacer_length,
      In upstream_base (upstream_bases self) /\
      dict_getitem COMPLEMENT upstream_base = inr downstream_base /\
      _create_tal_pair self fb up_pos down_pos spacer_length = inr r /\
      Cut_Site r = fb /\
      In up_pos (findAll s upstream_base (fb - max_dist self / 2 - 1)
                   (Some (fb - min_dist self / 2 - 1))) /\
      In down_pos (findAll s downstream_base (fb + (min_dist self + 1) / 2)
                     (Some (fb + (max_dist self + 1) / 2 + 1))) /\
      min_dist self <= down_pos - up_pos /\
      min_dist self + 2 <= down_pos - up_pos <= max_dist self + 1 /\
      min_spacer self <= spacer_length <= max_spacer self.
Proof.
  intros Hf Hs Hid r Hr.
  destruct (find_sound self s sid Hs Hid r Hr) as (ub & db & Hub & Hc & Hrow).
  rewrite Hf in Hrow.
  destruct Hrow as (up & down & sl & Hcr & Hup & Hdown & _ & _ & Hsl & _).
  exists ub, db, up, down, sl.
  destruct (create_inv _ _ _ _ _ _ Hcr) as (_ & _ & _ & _ & _ & _ & Hcut & _).
  repeat (split; [assumption|]).
  apply in_findAll in Hup. apply in_findAll in Hdown.
  destruct Hup as [Hup _]. destruct Hdown as [Hdown _].
  split; [dlia | split; [dlia | exact Hsl]].
Qed.

Lemma C2_witness :
  exists r,
    In r (yielded (_find_tal_pairs_for_seq test_task_filtered)) /\
    exists upstream_base downstream_base up_pos down_pos spacer_length,
      In upstream_base [py "T"] /\
      dict_getitem COMPLEMENT upstream_base = inr downstream_base /\
      _create_tal_pair test_task_filtered 31 up_pos down_pos spacer_length
        = inr r /\
      Cut_Site r = 31 /\
      In up_pos (findAll test_sequence upstream_base 3 (Some 9)) /\
      In down_pos (findAll test_sequence downstream_base 52 (Some 59)) /\
      42 <= down_pos - up_pos /\
      42 + 2 <= down_pos - up_pos <= 54 + 1 /\
      14 <= spacer_length <= 18.
Proof.
  destruct test_row_emitted as (r0 & _ & Hin).
  exists r0. split; [exact Hin|].
  exact (C2_filtered_bounds test_task_filtered test_sequence (py "seq1") 31
           eq_refl eq_refl eq_refl r0 Hin).
Defined.

(** C2 as the specification states it fails on the sequence of the tests:
    the row built from the anchors [3] and [58] is emitted, and they are
    [55 = max_dist + 1] apart. *)
Lemma C2_counterexample :
  ~ (forall r, In r (yielded (_find_tal_pairs_for_seq test_task_filtered)) ->
       exists up_pos down_pos spacer_length,
         _create_tal_pair test_task_filtered 31 up_pos down_pos spacer_length
           = inr r /\
         min_dist test_task_filtered <= down_pos - up_pos
           <= max_dist test_task_filtered /\
         min_spacer test_task_filtered <= spacer_length
           <= max_spacer test_task_filtered).
Proof.
  intros H.
  destruct test_row_emitted as (r0 & Hr0 & Hin).
  destruct (H r0 Hin) as (up & down & sl & Hc & Hd & _).
  destruct (create_inv _ _ _ _ _ _ Hc) as (_ & _ & _ & _ & _ & _ & _ & H1 & H2 & _).
  destruct (create_inv _ _ _ _ _ _ Hr0) as (_ & _ & _ & _ & _ & _ & _ & H3 & H4 & _).
  assert (Hup : up = 3) by lia. assert (Hdown : down = 58) by lia.
  rewrite Hup, Hdown in Hd. vm_compute in Hd. destruct Hd as [_ Hd].
  apply Hd. reflexivity.
Qed.

(** ** Lengths *)

Lemma emitted_row_slices (self : FindTALTask) (s : str) (r : row) :
  0 <= min_spacer self -> max_spacer self / 2 < min_dist self / 2 ->
  emitted_row self s r ->
  exists cut up_pos down_pos spacer_length,
    _create_tal_pair self cut up_pos down_pos spacer_length = inr r /\
    0 <= tal1_start up_pos <= tal1_end cut spacer_length /\
    tal1_end cut spacer_length <= len s /\
    0 <= tal2_start cut spacer_length <= tal2_end down_pos /\
    tal2_end down_pos <= len s.
Proof.
  intros Hms Hhalf (ub & db & _ & Hc & Hrow).
  unfold tal1_start, tal1_end, tal2_start, tal2_end.
  destruct (filter_base self) as [fb|].
  - destruct Hrow as (up & down & sl & Hcr & Hup & Hdown & _ & _ & Hsl & Hlo & Hhi).
    destruct (COMPLEMENT_one_char _ _ Hc) as (c & d & Hub & Hdb).
    assert (Hup0 : 0 <= up) by (eapply findAll_nonneg; [exact Hub | | exact Hup]; lia).
    apply in_findAll in Hup. apply in_findAll in Hdown.
    destruct Hup as [Hup _]. destruct Hdown as [Hdown _].
    exists fb, up, down, sl. split; [exact Hcr|]. dlia.
  - destruct Hrow as (cut & t & j & sl & Hcr & Ht & Hj & _ & _ & Hd & Hsl & Hcut).
    exists cut, t, j, sl. split; [exact Hcr|]. dlia.
Qed.

(** C5, as the code has it: the two length fields are the lengths of the
    slices [bases[tal1_start:tal1_end]] and [bases[tal2_start:tal2_end]],
    so they are never negative; they equal [tal1_end - tal1_start] and
    [tal2_end - tal2_start], and these differences are not negative, when
    [0 <= min_spacer] and [max_spacer//2 < min_dist//2]. *)
Theorem C5_lengths (self : FindTALTask) (s sid : str) :
  sequence self = Some s -> sequence_id self = Some sid ->
  (forall r, In r (yielded (_find_tal_pairs_for_seq self)) ->
     exists cut up_pos down_pos spacer_length,
       _create_tal_pair self cut up_pos down_pos spacer_length = inr r /\
       TAL1_length r =
         len (slice s (tal1_start up_pos) (tal1_end cut spacer_length)) /\
       TAL2_length r =
         len (slice s (tal2_start cut spacer_length) (tal2_end down_pos)) /\
       0 <= TAL1_length r /\ 0 <= TAL2_length r) /\
  (0 <= min_spacer self -> max_spacer self / 2 < min_dist self / 2 ->
   forall r, In r (yielded (_find_tal_pairs_for_seq self)) ->
     exists cut up_pos down_pos spacer_length,
       _create_tal_pair self cut up_pos down_pos spacer_length = inr r /\
       TAL1_length r = tal1_end cut spacer_length - tal1_start up_pos /\
       TAL2_length r = tal2_end down_pos - tal2_start cut spacer_length /\
       0 <= tal1_end cut spacer_length - tal1_start up_pos /\
       0 <= tal2_end down_pos - tal2_start cut spacer_length).
Proof.
  intros Hs Hid. split.
  - intros r Hr.
    destruct (find_sound self s sid Hs Hid r Hr) as (ub & db & _ & _ & Hrow).
    assert (Hquad : exists cut up down sl,
               _create_tal_pair self cut up down sl = inr r).
    { destruct (filter_base self) as [fb|].
      - destruct Hrow as (up & down & sl & Hcr & _). exists fb, up, down, sl; auto.
      - destruct Hrow as (cut & t & j & sl & Hcr & _). exists cut, t, j, sl; auto. }
    destruct Hquad as (cut & up & down & sl & Hcr).
    exists cut, up, down, sl. split; [exact Hcr|].
    destruct (create_inv _ _ _ _ _ _ Hcr)
      as (s' & _ & _ & Hs' & _ & _ & _ & _ & _ & _ & H1 & H2 & _).
    rewrite Hs in Hs'. injection Hs' as <-.
    rewrite H1, H2. repeat split; try reflexivity; apply len_nonneg.
  - intros Hms Hhalf r Hr.
    pose proof (find_sound self s sid Hs Hid r Hr) as Hrow.
    destruct (emitted_row_slices self s r Hms Hhalf Hrow)
      as (cut & up & down & sl & Hcr & Ha & Hb & Hc & Hd).
    exists cut, up, down, sl. split; [exact Hcr|].
    destruct (create_inv _ _ _ _ _ _ Hcr)
      as (s' & _ & _ & Hs' & _ & _ & _ & _ & _ & _ & H1 & H2 & _).
    rewrite Hs in Hs'. injection Hs' as <-.
    rewrite H1, H2, !len_slice by assumption.
    repeat split; lia.
Qed.

Lemma C5_witness :
  exists r,
    In r (yielded (_find_tal_pairs_for_seq test_task_filtered)) /\
    exists cut up_pos down_pos spacer_length,
      _create_tal_pair test_task_filtered cut up_pos down_pos spacer_length
        = inr r /\
      TAL1_length r = tal1_end cut spacer_length - tal1_start up_pos /\
      TAL2_length r = tal2_end down_pos - tal2_start cut spacer_length /\
      0 <= tal1_end cut spacer_length - tal1_start up_pos /\
      0 <= tal2_end down_pos - tal2_start cut spacer_length.
Proof.
  destruct test_row_emitted as (r0 & _ & Hin).
  exists r0. split; [exact Hin|].
  apply (C5_lengths test_task_filtered test_sequence (py "seq1")
           eq_refl eq_refl).
  - vm_compute. discriminate.
  - vm_compute. reflexivity.
  - exact Hin.
Defined.

(** C5 as the specification states it fails for a well-formed
    configuration with a wide spacer range: on ["TCCA"] with arrays of
    length 1 and spacers from 1 to 9, the row for the spacer length 9 has
    [tal1_end - tal1_start = -4] and 'TAL1 length' 0. *)
Lemma C5_counterexample :
  ~ (array_min wide_spacer_task <= array_max wide_spacer_task ->
     min_spacer wide_spacer_task <= max_spacer wide_spacer_task ->
     forall r, In r (yielded (_find_tal_pairs_for_seq wide_spacer_task)) ->
       exists cut up_pos down_pos spacer_length,
         _create_tal_pair wide_spacer_task cut up_pos down_pos spacer_length
           = inr r /\
         TAL1_length r = tal1_end cut spacer_length - tal1_start up_pos /\
         TAL2_length r = tal2_end down_pos - tal2_start cut spacer_length /\
         0 <= tal1_end cut spacer_length - tal1_start up_pos /\
         0 <= tal2_end down_pos - tal2_start cut spacer_length).
Proof.
  intros H.
  assert (Ha : array_min wide_spacer_task <= array_max wide_spacer_task)
    by (vm_compute; discriminate).
  assert (Hb : min_spacer wide_spacer_task <= max_spacer wide_spacer_task)
    by (vm_compute; discriminate).
  specialize (H Ha Hb).
  destruct wide_row_emitted as (r0 & Hr0 & Hin).
  destruct (H r0 Hin) as (cut & up & down & sl & Hc & _ & _ & Hd & _).
  destruct (create_inv _ _ _ _ _ _ Hc)
    as (_ & _ & _ & _ & _ & _ & H1 & H2 & _ & H4 & _).
  destruct (create_inv _ _ _ _ _ _ Hr0)
    as (_ & _ & _ & _ & _ & _ & H5 & H6 & _ & H8 & _).
  assert (Hcut : cut = 1) by lia. assert (Hup : up = 0) by lia.
  assert (Hsl : sl = 9) by lia.
  rewrite Hcut, Hup, Hsl in Hd. vm_compute in Hd. apply Hd. reflexivity.
Qed.

(** ** Degenerate configurations *)

Lemma emitted_row_config (self : FindTALTask) (s : str) (r : row) :
  emitted_row self s r ->
  min_spacer self <= max_spacer self /\
  min_dist self <= max_dist self /\
  min_dist self < len s.
Proof.
  intros (ub & db & _ & Hc & Hrow).
  destruct (filter_base self) as [fb|].
  - destruct Hrow as (up & down & sl & _ & Hup & Hdown & _ & _ & Hsl & Hlo & Hhi).
    apply in_findAll in Hup. apply in_findAll in Hdown.
    destruct Hup as [Hup _]. destruct Hdown as [Hdown _]. dlia.
  - destruct Hrow as (cut & t & j & sl & _ & Ht & Hj & _ & _ & Hd & Hsl & _).
    lia.
Qed.

Lemma total_nothing {Y} (P : Y -> Prop) (g : gen Y unit) :
  total P (fun _ => True) g -> (forall y, P y -> False) -> g = ([], inr tt).
Proof.
  destruct g as [ys res]. intros [Hys ([] & Hres & _)] Hno.
  simpl in *. subst res. destruct ys as [|y ys]; [reflexivity|].
  exfalso. apply (Hno y). inversion Hys; assumption.
Qed.

Lemma nothing_in {Y} (l : list Y) : (forall y, In y l -> False) -> l = [].
Proof.
  destruct l as [|y l]; [reflexivity|]. intros H. exfalso.
  apply (H y). left; reflexivity.
Qed.

(** C4, as the code has it: when every upstream base is a nucleotide,
    [min_spacer > max_spacer] and [min_dist > max_dist] give an empty
    enumeration that raises nothing; an upstream base outside A, C, G, T
    makes the enumeration raise [KeyError] when it reaches that base. *)
Theorem C4_config_errors (self : FindTALTask) (s sid : str) :
  sequence self = Some s -> sequence_id self = Some sid ->
  (Forall valid_base (upstream_bases self) ->
   min_spacer self > max_spacer self ->
   _find_tal_pairs_for_seq self = ([], inr tt)) /\
  (Forall valid_base (upstream_bases self) ->
   min_dist self > max_dist self ->
   _find_tal_pairs_for_seq self = ([], inr tt)) /\
  (forall pre b post,
     upstream_bases self = pre ++ b :: post ->
     Forall valid_base pre -> ~ valid_base b ->
     raised (_find_tal_pairs_for_seq self) = Some (KeyError b)).
Proof.
  intros Hs Hid. split; [|split].
  - intros Hv Hgt. apply (total_nothing _ _ (find_total self s sid Hs Hid Hv)).
    intros r Hr. apply emitted_row_config in Hr. lia.
  - intros Hv Hgt. apply (total_nothing _ _ (find_total self s sid Hs Hid Hv)).
    intros r Hr. apply emitted_row_config in Hr. lia.
  - intros pre b post. apply (find_KeyError self s sid Hs Hid).
Qed.

Lemma not_valid_base_N : ~ valid_base (py "N").
Proof. intros [H|[H|[H|[H|[]]]]]; discriminate. Qed.

Lemma C4_witness :
  _find_tal_pairs_for_seq inverted_spacer_task = ([], inr tt) /\
  raised (_find_tal_pairs_for_seq bad_base_task) = Some (KeyError (py "N")).
Proof.
  split.
  - destruct (C4_config_errors inverted_spacer_task test_sequence (py "seq1")
                eq_refl eq_refl) as (H & _ & _).
    apply H.
    + repeat constructor.
    + vm_compute. reflexivity.
  - destruct (C4_config_errors bad_base_task test_sequence (py "seq1")
                eq_refl eq_refl) as (_ & _ & H).
    apply (H [] (py "N") []).
    + reflexivity.
    + constructor.
    + exact not_valid_base_N.
Defined.

(** C4 as the specification states it fails twice: an upstream base ["N"]
    raises [KeyError], and [array_min = 2 > array_max = 1] with spacers
    from 1 to 4 still yields rows on ["TCCCCA"]. *)
Lemma C4_counterexample :
  ~ (config_error bad_base_task ->
     _find_tal_pairs_for_seq bad_base_task = ([], inr tt)) /\
  ~ (config_error inverted_array_task ->
     _find_tal_pairs_for_seq inverted_array_task = ([], inr tt)).
Proof.
  split; intros H.
  - assert (Hc : config_error bad_base_task).
    { right; right. exists (py "N"). split; [left; reflexivity|].
      exact not_valid_base_N. }
    specialize (H Hc). vm_compute in H. discriminate.
  - assert (Hc : config_error inverted_array_task).
    { right; left. vm_compute. reflexivity. }
    specialize (H Hc). vm_compute in H. discriminate.
Qed.

(** C6: a sequence shorter than [min_dist] yields no row, in either mode;
    and a [filter_base] with [filter_base - max_dist//2 < 0] or
    [filter_base + (max_dist+1)//2 + 1 > length] yields no row and raises
    nothing, for each upstream base of the table and for the whole
    enumeration over such bases. *)
Theorem C6_empty_boundaries (self : FindTALTask) (s sid : str) :
  sequence self = Some s -> sequence_id self = Some sid ->
  (len s < min_dist self ->
   yielded (_find_tal_pairs_for_seq self) = [] /\
   (Forall valid_base (upstream_bases self) ->
    _find_tal_pairs_for_seq self = ([], inr tt))) /\
  (forall fb,
     filter_base self = Some fb ->
     fb - max_dist self / 2 < 0 \/
     fb + (max_dist self + 1) / 2 + 1 > len s ->
     (forall upstream_base, valid_base upstream_base ->
        upstream_body self upstream_base = ([], inr tt)) /\
     (Forall valid_base (upstream_bases self) ->
      _find_tal_pairs_for_seq self = ([], inr tt))).
Proof.
  intros Hs Hid. split.
  - intros Hshort. split.
    + apply nothing_in. intros r Hr.
      apply (find_sound self s sid Hs Hid) in Hr.
      apply emitted_row_config in Hr. lia.
    + intros Hv. apply (total_nothing _ _ (find_total self s sid Hs Hid Hv)).
      intros r Hr. apply emitted_row_config in Hr. lia.
  - intros fb Hf Hedge.
    assert (Hbody : forall ub, valid_base ub ->
              upstream_body self ub = ([], inr tt)).
    { intros ub Hub. destruct (valid_base_complement ub Hub) as [db Hc].
      unfold upstream_body. rewrite Hc, bind_lift_inr, Hf.
      apply (filtered_body_skip self s ub db fb Hs Hedge). }
    split; [exact Hbody|].
    intros Hv. unfold _find_tal_pairs_for_seq.
    induction Hv as [|b bs Hb Hbs IH]; [reflexivity|].
    cbn [for_each]. rewrite (Hbody b Hb). unfold bind. rewrite IH.
    reflexivity.
Qed.

Lemma C6_witness :
  upstream_body edge_task (py "T") = ([], inr tt) /\
  _find_tal_pairs_for_seq edge_task = ([], inr tt).
Proof.
  destruct (C6_empty_boundaries edge_task test_sequence (py "seq1")
              eq_refl eq_refl) as [_ H].
  destruct (H 5 eq_refl) as [H1 H2].
  - left. vm_compute. reflexivity.
  - split.
    + apply H1. left; reflexivity.
    + apply H2. repeat constructor.
Defined.

(** ** [run] *)

Lemma logger_undefined :
  load_global (py "logger") = inl (NameError (py "logger")).
Proof. reflexivity. Qed.

(** C9: [run] raises on every input and returns no DataFrame. A missing
    file gives [FileNotFoundError]; a file whose first record parses gives
    [NameError] for [logger] inside the [try] block, which the handler
    turns into [Exception("Error reading FASTA file: ...")]. *)
Theorem C9_run_always_raises (self : FindTALTask) (file : fasta_file) :
  (exists e, run self file = inl e) /\
  (forall r, run self file <> inr r) /\
  (file = Missing ->
   run self file
   = inl (FileNotFoundError (py "FASTA file not found: " ++ fasta self))) /\
  (forall first_record rs,
     file = Records (first_record :: rs) ->
     run_try self file = inl (NameError (py "logger")) /\
     run self file
     = inl (Exception
              (py "Error reading FASTA file: name 'logger' is not defined"))).
Proof.
  assert (Hraise : exists e, run self file = inl e).
  { unfold run. destruct file as [|e|[|first_record rs]]; simpl.
    - eexists; reflexivity.
    - destruct e; eexists; reflexivity.
    - eexists; reflexivity.
    - eexists; reflexivity. }
  split; [exact Hraise | split; [|split]].
  - intros r Hr. destruct Hraise as [e He]. rewrite He in Hr. discriminate.
  - intros ->. reflexivity.
  - intros first_record rs ->. split; reflexivity.
Qed.

Lemma C9_witness :
  run test_task_filtered (Records [(py "test_10400_T", test_sequence)])
  = inl (Exception
           (py "Error reading FASTA file: name 'logger' is not defined")) /\
  run test_task_filtered Missing
  = inl (FileNotFoundError (py "FASTA file not found: input.fasta")).
Proof.
  split.
  - destruct (C9_run_always_raises test_task_filtered
                (Records [(py "test_10400_T", test_sequence)]))
      as (_ & _ & _ & H).
    apply (H _ [] eq_refl).
  - destruct (C9_run_always_raises test_task_filtered Missing)
      as (_ & _ & H & _).
    apply (H eq_refl).
Defined.

(** * Further properties of [api.py] *)

(** ** [findAll] *)

Lemma range_sorted (a b : Z) : StronglySorted Z.lt (range a b).
Proof.
  remember (Z.to_nat (b - a)) as n eqn:Hn. revert a Hn.
  induction n as [|n IH]; intros a Hn.
  - rewrite range_nil by lia. constructor.
  - rewrite range_cons by lia. constructor; [apply IH; lia|].
    apply Forall_forall. intros i Hi. apply in_range in Hi. lia.
Qed.

Lemma filter_sorted {A} (R : A -> A -> Prop) (f : A -> bool) (l : list A) :
  StronglySorted R l -> StronglySorted R (filter f l).
Proof.
  induction 1 as [|x l Hl IH Hx]; simpl; [constructor|].
  destruct (f x); [|exact IH]. constructor; [exact IH|].
  rewrite Forall_forall in *. intros y Hy. apply filter_In in Hy.
  apply Hx. tauto.
Qed.

Lemma sorted_NoDup {A} (R : A -> A -> Prop) (l : list A) :
  (forall x, ~ R x x) -> StronglySorted R l -> NoDup l.
Proof.
  intros Hirr. induction 1 as [|x l Hl IH Hx]; constructor; [|exact IH].
  intros Hin. rewrite Forall_forall in Hx. exact (Hirr x (Hx x Hin)).
Qed.

(** X1: [findAll] returns its matches in strictly increasing order, hence
    without repetition, and returns exactly the indices of
    [range(start, end)] at which the slice of the length of [sub] equals
    [sub]; [end] defaults to the length of the sequence. *)
Theorem X1_findAll_sorted_exact (s sub : str) (start : Z) (end_ : option Z) :
  StronglySorted Z.lt (findAll s sub start end_) /\
  NoDup (findAll s sub start end_) /\
  forall i,
    In i (findAll s sub start end_) <->
    start <= i < match end_ with None => len s | Some e => e end /\
    slice s i (i + len sub) = sub.
Proof.
  assert (Hs : StronglySorted Z.lt (findAll s sub start end_))
    by (unfold findAll; apply filter_sorted, range_sorted).
  split; [exact Hs | split].
  - apply (sorted_NoDup Z.lt); [intros x; lia | exact Hs].
  - intros i. unfold findAll. rewrite filter_In, in_range, str_eqb_eq. tauto.
Qed.

Lemma nth_error_firstn_one {A} (k : nat) (s : list A) (c : A) :
  nth_error s k = Some c -> firstn 1 (skipn k s) = [c].
Proof.
  revert s; induction k as [|k IH]; intros [|x s] H; try discriminate.
  - simpl in H. injection H as ->. reflexivity.
  - simpl in *. auto.
Qed.

Lemma getitem_slice_one (s : str) (i : Z) (c : ascii) :
  getitem s i = inr [c] -> i <> -1 -> slice s i (i + 1) = [c].
Proof.
  unfold getitem, slice. intros H Hne.
  set (k := if i <? 0 then i + len s else i) in H.
  destruct ((0 <=? k) && (k <? len s)) eqn:Hb; [|discriminate].
  apply andb_true_iff in Hb. destruct Hb as [Hk0 Hk1].
  destruct (nth_error s (Z.to_nat k)) as [c'|] eqn:Hn; [|discriminate].
  injection H as ->.
  assert (Hlo : clamp (len s) i = k)
    by (unfold clamp, k in *; destruct (Z.ltb_spec i 0); lia).
  assert (Hhi : clamp (len s) (i + 1) = k + 1)
    by (unfold clamp, k in *;
        destruct (Z.ltb_spec i 0), (Z.ltb_spec (i + 1) 0); lia).
  rewrite Hlo, Hhi. replace (Z.to_nat (k + 1 - k)) with 1%nat by lia.
  apply nth_error_firstn_one. exact Hn.
Qed.

(** X2: for a one-character [sub], [findAll] returns exactly the indices of
    [range(start, end)] that hold that character under Python indexing,
    except the index [-1], which it never returns: the slice [s[-1:0]] is
    empty. *)
Theorem X2_findAll_char (s : str) (c : ascii) (start e i : Z) :
  In i (findAll s [c] start (Some e)) <->
  start <= i < e /\ i <> -1 /\ getitem s i = inr [c].
Proof.
  rewrite in_findAll. change (i + len [c]) with (i + 1). split.
  - intros [Hi H]. split; [exact Hi | split].
    + intros ->. unfold slice in H. apply firstn_skipn_one in H.
      destruct H as [_ H]. unfold clamp, len in H. simpl in H. lia.
    + apply slice_one_getitem. exact H.
  - intros (Hi & Hne & H). split; [exact Hi|].
    apply getitem_slice_one; assumption.
Qed.

Lemma clamp_range (n i : Z) : 0 <= n -> 0 <= clamp n i <= n.
Proof. intros Hn. unfold clamp. destruct (Z.ltb_spec i 0); lia. Qed.

Lemma len_slice_clamp (s : str) (a b : Z) :
  len (slice s a b) = Z.max 0 (clamp (len s) b - clamp (len s) a).
Proof.
  pose proof (clamp_range (len s) a (len_nonneg s)) as Ha.
  pose proof (clamp_range (len s) b (len_nonneg s)) as Hb.
  unfold slice. unfold len at 1. rewrite length_firstn, length_skipn.
  unfold len in *. lia.
Qed.

(** X3: a match of a non-empty [sub] lies inside the sequence: either its
    index is not negative and the match ends at or before the end of the
    sequence, or its index is negative, counts from the end, and the match
    ends before the last position is passed; no match wraps around. *)
Theorem X3_findAll_inside (s sub : str) (start : Z) (end_ : option Z) (i : Z) :
  sub <> [] ->
  In i (findAll s sub start end_) ->
  (0 <= i /\ i + len sub <= len s) \/
  (- len s <= i /\ i + len sub < 0).
Proof.
  intros Hne Hin. unfold findAll in Hin. apply filter_In in Hin.
  destruct Hin as [_ Hm]. apply str_eqb_eq in Hm.
  assert (Hl : len (slice s i (i + len sub)) = len sub) by (rewrite Hm; reflexivity).
  rewrite len_slice_clamp in Hl.
  assert (Hpos : 0 < len sub)
    by (destruct sub; [congruence | unfold len; simpl; lia]).
  pose proof (len_nonneg s) as Hn.
  unfold clamp in Hl.
  destruct (Z.ltb_spec i 0), (Z.ltb_spec (i + len sub) 0); lia.
Qed.

Lemma X3_witness :
  In (-2) (findAll (py "TA") (py "T") (-2) (Some 2)) /\
  ((0 <= -2 /\ -2 + len (py "T") <= len (py "TA")) \/
   (- len (py "TA") <= -2 /\ -2 + len (py "T") < 0)).
Proof.
  assert (Hin : In (-2) (findAll (py "TA") (py "T") (-2) (Some 2)))
    by (left; reflexivity).
  split; [exact Hin|].
  apply (X3_findAll_inside (py "TA") (py "T") (-2) (Some 2) (-2));
    [discriminate | exact Hin].
Defined.

(** ** The eviction loop *)

(** X4: on an increasing queue the eviction loop is a filter: it keeps
    exactly the entries that are not below [min_i_allowed], in their
    order. *)
Theorem X4_evict_filter (upstream_q : list Z) (min_i_allowed : Z) :
  StronglySorted Z.lt upstream_q ->
  evict upstream_q min_i_allowed
  = filter (fun t => negb (t <? min_i_allowed)) upstream_q.
Proof.
  induction 1 as [|t q Hq IH Ht]; simpl; [reflexivity|].
  destruct (Z.ltb_spec t min_i_allowed) as [Hlt|Hge]; simpl; [exact IH|].
  f_equal. symmetry. apply forallb_filter_id. apply forallb_forall.
  rewrite Forall_forall in Ht. intros x Hx. specialize (Ht x Hx).
  apply negb_true_iff. lia.
Qed.

Lemma X4_witness :
  evict [2; 5; 9] 5 = filter (fun t => negb (t <? 5)) [2; 5; 9].
Proof.
  apply X4_evict_filter. repeat constructor.
Defined.

(** ** More on the record builder *)

Lemma getitem_in_range (s : str) (i : Z) :
  - len s <= i < len s -> exists c, getitem s i = inr [c].
Proof.
  intros H. unfold getitem.
  set (k := if i <? 0 then i + len s else i).
  assert (Hk : 0 <= k < len s) by (unfold k; destruct (Z.ltb_spec i 0); lia).
  replace ((0 <=? k) && (k <? len s)) with true by lia.
  destruct (nth_error s (Z.to_nat k)) as [c|] eqn:Hn; [eauto|].
  apply nth_error_None in Hn. unfold len in Hk. lia.
Qed.

Lemma getitem_out_of_range (s : str) (i : Z) :
  ~ (- len s <= i < len s) -> getitem s i = inl IndexError.
Proof.
  intros H. unfold getitem.
  set (k := if i <? 0 then i + len s else i).
  assert (Hk : ~ (0 <= k < len s))
    by (unfold k; destruct (Z.ltb_spec i 0); lia).
  replace ((0 <=? k) && (k <? len s)) with false; [reflexivity|].
  symmetry. apply andb_false_iff. lia.
Qed.

(** X5: on an object whose sequence and identifier are set, the builder
    returns a row when both anchors index the sequence under Python's rule
    ([-len <= pos < len]), and raises [IndexError] otherwise; the cut site
    and the spacer length are never checked. *)
Theorem X5_create_IndexError (self : FindTALTask) (s sid : str)
    (cut up_pos down_pos spacer_length : Z) :
  sequence self = Some s -> sequence_id self = Some sid ->
  (- len s <= up_pos < len s /\ - len s <= down_pos < len s ->
   exists r, _create_tal_pair self cut up_pos down_pos spacer_length = inr r) /\
  (~ (- len s <= up_pos < len s /\ - len s <= down_pos < len s) ->
   _create_tal_pair self cut up_pos down_pos spacer_length = inl IndexError).
Proof.
  intros Hs Hid. split.
  - intros [Hu Hd].
    destruct (getitem_in_range s up_pos Hu) as [cu Hcu].
    destruct (getitem_in_range s down_pos Hd) as [cd Hcd].
    exact (create_returns self s sid Hs Hid cut up_pos down_pos spacer_length
             _ _ Hcu Hcd).
  - intros Hout. unfold _create_tal_pair, self_sequence. rewrite Hs.
    destruct (Z_le_dec (- len s) up_pos) as [H1|H1];
      [destruct (Z_lt_dec up_pos (len s)) as [H2|H2]|].
    + destruct (getitem_in_range s up_pos (conj H1 H2)) as [cu Hcu].
      rewrite Hcu, getitem_out_of_range by tauto. reflexivity.
    + rewrite getitem_out_of_range by lia. reflexivity.
    + rewrite getitem_out_of_range by lia. reflexivity.
Qed.

Lemma X5_witness :
  (exists r, _create_tal_pair test_task_filtered 31 (-61) 60 14 = inr r) /\
  _create_tal_pair test_task_filtered 31 3 61 14 = inl IndexError.
Proof.
  split.
  - apply (X5_create_IndexError test_task_filtered test_sequence (py "seq1")
             31 (-61) 60 14 eq_refl eq_refl).
    vm_compute. repeat split; discriminate.
  - apply (X5_create_IndexError test_task_filtered test_sequence (py "seq1")
             31 3 61 14 eq_refl eq_refl).
    vm_compute. intros [_ [_ H]]. discriminate.
Defined.

(** X6: a row determines the quadruple it was built from: two calls of the
    builder that return the same row have the same cut site, anchors and
    spacer length. *)
Theorem X6_create_injective (self : FindTALTask) (r : row)
    (cut up_pos down_pos spacer_length cut' up_pos' down_pos' spacer_length' : Z) :
  _create_tal_pair self cut up_pos down_pos spacer_length = inr r ->
  _create_tal_pair self cut' up_pos' down_pos' spacer_length' = inr r ->
  cut = cut' /\ up_pos = up_pos' /\ down_pos = down_pos' /\
  spacer_length = spacer_length'.
Proof.
  intros H H'.
  destruct (create_inv _ _ _ _ _ _ H)
    as (_ & _ & _ & _ & _ & _ & H1 & H2 & H3 & H4 & _).
  destruct (create_inv _ _ _ _ _ _ H')
    as (_ & _ & _ & _ & _ & _ & H1' & H2' & H3' & H4' & _).
  lia.
Qed.

Lemma X6_witness :
  31 = 31 /\ 3 = 3 /\ 58 = 58 /\ 14 = 14.
Proof.
  destruct test_row_emitted as (r0 & Hr0 & _).
  exact (X6_create_injective test_task_filtered r0 31 3 58 14 31 3 58 14
           Hr0 Hr0).
Defined.

Lemma create_value (self : FindTALTask) (cut up_pos down_pos spacer_length : Z)
    (r : row) :
  _create_tal_pair self cut up_pos down_pos spacer_length = inr r ->
  exists s sid cu cd,
    sequence self = Some s /\ sequence_id self = Some sid /\
    getitem s up_pos = inr cu /\ getitem s down_pos = inr cd /\
    Sequence_Name r = sid /\
    Spacer_length r = spacer_length /\
    Spacer_range r =
      str_of_Z (tal1_end cut spacer_length) ++ py "-"
        ++ str_of_Z (tal2_start cut spacer_length) /\
    Plus_strand_sequence r =
      cu ++ py " "
        ++ slice s (tal1_start up_pos) (tal1_end cut spacer_length) ++ py " "
        ++ lower (slice s (tal1_end cut spacer_length)
                    (tal2_start cut spacer_length)) ++ py " "
        ++ slice s (tal2_start cut spacer_length) (tal2_end down_pos) ++ py " "
        ++ cd /\
    TAL1_RVDs r = [] /\ TAL2_RVDs r = [] /\
    Unique_RE_sites_in_spacer r = [] /\ Pct_RVDs_HD_or_NN_NH r = [].
Proof.
  unfold _create_tal_pair, self_sequence, self_sequence_id.
  destruct (sequence self) as [s|]; [|discriminate].
  destruct (getitem s up_pos) as [e|cu] eqn:Hu; [discriminate|].
  destruct (getitem s down_pos) as [e|cd] eqn:Hd; [discriminate|].
  destruct (sequence_id self) as [sid|]; [|discriminate].
  intros H. injection H as <-. exists s, sid, cu, cd. simpl.
  repeat split; assumption || reflexivity.
Qed.

(** X7: the two numbers printed in 'Spacer range' are
    [cut - spacer_length//2] and [cut + (spacer_length+1)//2 - 1]; they are
    [spacer_length - 1] apart, one less than the 'Spacer length' field of
    the same row. *)
Theorem X7_spacer_range_width (self : FindTALTask) (r : row)
    (cut up_pos down_pos spacer_length : Z) :
  _create_tal_pair self cut up_pos down_pos spacer_length = inr r ->
  exists a b,
    Spacer_range r = str_of_Z a ++ py "-" ++ str_of_Z b /\
    a = Cut_Site r - Spacer_length r / 2 /\
    b = Cut_Site r + (Spacer_length r + 1) / 2 - 1 /\
    b - a = Spacer_length r - 1.
Proof.
  intros H.
  destruct (create_inv _ _ _ _ _ _ H)
    as (_ & _ & _ & _ & _ & _ & Hc & _ & _ & Hsl & _).
  destruct (create_value _ _ _ _ _ _ H)
    as (_ & _ & _ & _ & _ & _ & _ & _ & _ & _ & Hr & _).
  exists (tal1_end cut spacer_length), (tal2_start cut spacer_length).
  rewrite Hc, Hsl. unfold tal1_end, tal2_start.
  repeat split; [exact Hr | dlia].
Qed.

Lemma X7_witness :
  exists r a b,
    _create_tal_pair test_task_filtered 31 3 58 14 = inr r /\
    Spacer_range r = str_of_Z a ++ py "-" ++ str_of_Z b /\
    a = Cut_Site r - Spacer_length r / 2 /\
    b = Cut_Site r + (Spacer_length r + 1) / 2 - 1 /\
    b - a = Spacer_length r - 1.
Proof.
  destruct test_row_emitted as (r0 & Hr0 & _).
  destruct (X7_spacer_range_width test_task_filtered r0 31 3 58 14 Hr0)
    as (a & b & H).
  exists r0, a, b. split; [exact Hr0 | exact H].
Defined.

Lemma firstn_plus {A} (n m : nat) (l : list A) :
  firstn (n + m) l = firstn n l ++ firstn m (skipn n l).
Proof.
  revert l; induction n as [|n IH]; intros l; [reflexivity|].
  destruct l as [|x l]; simpl.
  - rewrite firstn_nil. reflexivity.
  - rewrite IH. reflexivity.
Qed.

Lemma slice_inside (s : str) (a b : Z) :
  0 <= a -> 0 <= b <= len s ->
  slice s a b = firstn (Z.to_nat (b - a)) (skipn (Z.to_nat a) s).
Proof.
  intros Ha Hb. unfold slice, clamp.
  replace (a <? 0) with false by lia. replace (b <? 0) with false by lia.
  replace (Z.min b (len s)) with b by lia.
  destruct (Z.le_gt_cases a (len s)) as [Hle|Hgt].
  - replace (Z.min a (len s)) with a by lia. reflexivity.
  - replace (Z.min a (len s)) with (len s) by lia.
    replace (Z.to_nat (b - a)) with 0%nat by lia.
    rewrite skipn_all2 by (unfold len; lia). rewrite firstn_nil. reflexivity.
Qed.

Lemma slice_app (s : str) (a b c : Z) :
  0 <= a <= b -> b <= c <= len s ->
  slice s a b ++ slice s b c = slice s a c.
Proof.
  intros Hab Hbc. rewrite !slice_inside by lia.
  replace (Z.to_nat (c - a)) with (Z.to_nat (b - a) + Z.to_nat (c - b))%nat
    by lia.
  rewrite firstn_plus, skipn_skipn. do 3 f_equal. lia.
Qed.

Lemma len_app {A} (a b : list A) : len (a ++ b) = len a + len b.
Proof. unfold len. rewrite length_app. lia. Qed.

Lemma len_lower (s : str) : len (lower s) = len s.
Proof. unfold len, lower. rewrite length_map. reflexivity. Qed.

Lemma ascii_only_app (a b : str) :
  ascii_only (a ++ b) <-> ascii_only a /\ ascii_only b.
Proof. unfold ascii_only. rewrite forallb_app. apply andb_true_iff. Qed.

Lemma ascii_only_slice (s : str) (a b : Z) :
  ascii_only s -> ascii_only (slice s a b).
Proof.
  unfold ascii_only, slice. rewrite !forallb_forall. intros H c Hc.
  apply H.
  rewrite <- (firstn_skipn (Z.to_nat (clamp (len s) a)) s).
  apply in_or_app. right.
  rewrite <- (firstn_skipn
                (Z.to_nat (clamp (len s) b - clamp (len s) a))
                (skipn (Z.to_nat (clamp (len s) a)) s)).
  apply in_or_app. left. exact Hc.
Qed.

Lemma lower_char_ascii (c : ascii) :
  (nat_of_ascii c < 128)%nat -> (nat_of_ascii (lower_char c) < 128)%nat.
Proof.
  intros H. unfold lower_char.
  destruct (Nat.leb 65 (nat_of_ascii c) && Nat.leb (nat_of_ascii c) 90)%bool
    eqn:Hb; [|exact H].
  apply andb_true_iff in Hb. destruct Hb as [H1 H2].
  apply Nat.leb_le in H1. apply Nat.leb_le in H2.
  rewrite nat_ascii_embedding by lia. lia.
Qed.

Lemma ascii_only_lower (s : str) : ascii_only s -> ascii_only (lower s).
Proof.
  unfold ascii_only, lower. rewrite !forallb_forall. intros H c Hc.
  apply in_map_iff in Hc. destruct Hc as (c0 & <- & Hc0).
  apply Nat.ltb_lt. apply lower_char_ascii. apply Nat.ltb_lt. apply H, Hc0.
Qed.

(** X8: on a sequence of ASCII characters, for a quadruple whose pieces are
    in order inside the sequence
    ([0 <= up_pos], [tal1_start <= tal1_end], [1 <= spacer_length],
    [tal2_start <= down_pos < len]), the plus-strand string is the stretch
    of the sequence from the upstream anchor to the downstream anchor, cut
    into five pieces by four spaces, the third piece in lower case: the
    pieces put together are [bases[up_pos : down_pos + 1]], the string has
    [down_pos - up_pos + 5] characters, all ASCII, and the lower-case piece
    has [spacer_length - 1] of them. *)
Theorem X8_plus_strand (self : FindTALTask) (s : str) (r : row)
    (cut up_pos down_pos spacer_length : Z) :
  _create_tal_pair self cut up_pos down_pos spacer_length = inr r ->
  sequence self = Some s ->
  ascii_only s ->
  0 <= up_pos ->
  tal1_start up_pos <= tal1_end cut spacer_length ->
  1 <= spacer_length ->
  tal2_start cut spacer_length <= down_pos ->
  down_pos < len s ->
  exists tal1 spacer tal2,
    Plus_strand_sequence r =
      slice s up_pos (up_pos + 1) ++ py " " ++ tal1 ++ py " "
        ++ lower spacer ++ py " " ++ tal2 ++ py " "
        ++ slice s down_pos (down_pos + 1) /\
    slice s up_pos (up_pos + 1) ++ tal1 ++ spacer ++ tal2
      ++ slice s down_pos (down_pos + 1)
    = slice s up_pos (down_pos + 1) /\
    len tal1 = TAL1_length r /\
    len spacer = Spacer_length r - 1 /\
    len tal2 = TAL2_length r /\
    len (Plus_strand_sequence r) = down_pos - up_pos + 5 /\
    ascii_only (Plus_strand_sequence r).
Proof.
  intros Hc Hs Hascii Hup H1 Hsl H2 Hdown.
  destruct (create_inv _ _ _ _ _ _ Hc)
    as (s' & cu' & cd' & Hs' & _ & _ & _ & _ & _ & Hsl' & Hl1 & Hl2 & _).
  rewrite Hs in Hs'. injection Hs' as <-.
  destruct (create_value _ _ _ _ _ _ Hc)
    as (s' & sid & cu & cd & Hs' & _ & Hu & Hd & _ & _ & _ & Hp & _).
  rewrite Hs in Hs'. injection Hs' as <-.
  unfold tal1_start, tal1_end, tal2_start, tal2_end in *.
  assert (Hte : up_pos + 1 <= cut - spacer_length / 2) by exact H1.
  assert (Hts : cut - spacer_length / 2 <= cut + (spacer_length + 1) / 2 - 1)
    by dlia.
  assert (Hw : cut + (spacer_length + 1) / 2 - 1 - (cut - spacer_length / 2)
               = spacer_length - 1) by dlia.
  destruct (getitem_in_range s up_pos ltac:(lia)) as [c Hgc].
  destruct (getitem_in_range s down_pos ltac:(lia)) as [d Hgd].
  rewrite Hgc in Hu. injection Hu as <-.
  rewrite Hgd in Hd. injection Hd as <-.
  pose proof (getitem_slice_one s up_pos c Hgc ltac:(lia)) as Hsu.
  pose proof (getitem_slice_one s down_pos d Hgd ltac:(lia)) as Hsd.
  exists (slice s (up_pos + 1) (cut - spacer_length / 2)),
         (slice s (cut - spacer_length / 2)
                  (cut + (spacer_length + 1) / 2 - 1)),
         (slice s (cut + (spacer_length + 1) / 2 - 1) down_pos).
  rewrite Hsu, Hsd, Hl1, Hl2, Hsl'.
  repeat split; try reflexivity.
  - exact Hp.
  - rewrite <- Hsu, <- Hsd. rewrite !slice_app by lia. reflexivity.
  - rewrite len_slice by lia. lia.
  - rewrite Hp. rewrite !len_app, len_lower, !len_slice by lia.
    change (len [c]) with 1. change (len [d]) with 1.
    change (len (py " ")) with 1. lia.
  - rewrite Hp, <- Hsu, <- Hsd.
    repeat (apply ascii_only_app; split);
      try (apply ascii_only_lower); try (apply ascii_only_slice; exact Hascii);
      reflexivity.
Qed.

Lemma X8_witness :
  exists r tal1 spacer tal2,
    Plus_strand_sequence r =
      slice test_sequence 3 (3 + 1) ++ py " " ++ tal1 ++ py " "
        ++ lower spacer ++ py " " ++ tal2 ++ py " "
        ++ slice test_sequence 58 (58 + 1) /\
    slice test_sequence 3 (3 + 1) ++ tal1 ++ spacer ++ tal2
      ++ slice test_sequence 58 (58 + 1)
    = slice test_sequence 3 (58 + 1) /\
    len tal1 = TAL1_length r /\
    len spacer = Spacer_length r - 1 /\
    len tal2 = TAL2_length r /\
    len (Plus_strand_sequence r) = 58 - 3 + 5 /\
    ascii_only (Plus_strand_sequence r).
Proof.
  destruct test_row_emitted as (r0 & Hr0 & _).
  exists r0.
  apply (X8_plus_strand test_task_filtered test_sequence r0 31 3 58 14 Hr0
           eq_refl eq_refl); vm_compute; try discriminate; reflexivity.
Defined.

(** X9: for every row of either mode, when [0 <= min_spacer] and
    [max_spacer//2 < min_dist//2], the three length fields add up to the
    distance between the anchors:
    ['TAL1 length' + 'TAL2 length' + 'Spacer length'
     = 'TAL2 start' - 'TAL1 start' + 2]. *)
Theorem X9_lengths_add_up (self : FindTALTask) (s sid : str) :
  sequence self = Some s -> sequence_id self = Some sid ->
  0 <= min_spacer self -> max_spacer self / 2 < min_dist self / 2 ->
  forall r, In r (yielded (_find_tal_pairs_for_seq self)) ->
    TAL1_length r + TAL2_length r + Spacer_length r
    = TAL2_start r - TAL1_start r + 2.
Proof.
  intros Hs Hid Hms Hhalf r Hr.
  pose proof (find_sound self s sid Hs Hid r Hr) as Hrow.
  destruct (emitted_row_slices self s r Hms Hhalf Hrow)
    as (cut & up & down & sl & Hcr & Ha & Hb & Hc & Hd).
  destruct (create_inv _ _ _ _ _ _ Hcr)
    as (s' & _ & _ & Hs' & _ & _ & _ & H1 & H2 & H3 & H4 & H5 & _).
  rewrite Hs in Hs'. injection Hs' as <-.
  rewrite H1, H2, H3, H4, H5, !len_slice by assumption.
  unfold tal1_start, tal1_end, tal2_start, tal2_end. dlia.
Qed.

Lemma X9_witness :
  exists r,
    In r (yielded (_find_tal_pairs_for_seq test_task_filtered)) /\
    TAL1_length r + TAL2_length r + Spacer_length r
    = TAL2_start r - TAL1_start r + 2.
Proof.
  destruct test_row_emitted as (r0 & _ & Hin).
  exists r0. split; [exact Hin|].
  apply (X9_lengths_add_up test_task_filtered test_sequence (py "seq1")
           eq_refl eq_refl).
  - vm_compute. discriminate.
  - vm_compute. reflexivity.
  - exact Hin.
Defined.

(** ** More rules for generators *)

Lemma yielded_bind {Y A B} (m : gen Y A) (f : A -> gen Y B) :
  yielded (bind m f)
  = yielded m ++ match snd m with inr a => yielded (f a) | inl _ => [] end.
Proof.
  destruct m as [ys [e|a]]; simpl.
  - rewrite app_nil_r. reflexivity.
  - destruct (f a); reflexivity.
Qed.

Lemma raised_bind {Y A B} (m : gen Y A) (f : A -> gen Y B) (a : A) :
  snd m = inr a -> raised (bind m f) = raised (f a).
Proof.
  destruct m as [ys res]. simpl. intros ->. unfold bind, raised.
  destruct (f a); reflexivity.
Qed.

Lemma length_range (a b : Z) : List.length (range a b) = Z.to_nat (b - a).
Proof. unfold range. rewrite length_map, length_seq. reflexivity. Qed.

Lemma for_each_length {X Y} (xs : list X) (body : X -> gen Y unit) (n : nat) :
  (forall x, In x xs ->
     raised (body x) = None /\ List.length (yielded (body x)) = n) ->
  raised (for_each xs body) = None /\
  List.length (yielded (for_each xs body)) = (List.length xs * n)%nat.
Proof.
  induction xs as [|x xs IH]; intros H; [split; reflexivity|].
  destruct (H x (or_introl eq_refl)) as [Hr Hl].
  destruct IH as [IHr IHl]; [intros; apply H; right; assumption|].
  cbn [for_each]. unfold raised in Hr.
  destruct (snd (body x)) as [e|[]] eqn:Hs; [discriminate|]. split.
  - rewrite (raised_bind _ _ tt Hs). exact IHr.
  - rewrite yielded_bind, Hs, length_app, Hl, IHl. simpl. lia.
Qed.

Lemma in_for_break {X Y} (xs : list X) (body : X -> gen Y ctl) (y : Y) :
  In y (yielded (for_break xs body)) ->
  exists x, In x xs /\ In y (yielded (body x)).
Proof.
  induction xs as [|x xs IH]; simpl; [tauto|].
  rewrite in_bind. intros [H|(c & _ & H)].
  - exists x; auto.
  - destruct c; [|destruct H].
    destruct (IH H) as (x' & Hx & Hy). exists x'; auto.
Qed.

Lemma sorted_app {A} (R : A -> A -> Prop) (l1 l2 : list A) :
  StronglySorted R l1 -> StronglySorted R l2 ->
  (forall a b, In a l1 -> In b l2 -> R a b) ->
  StronglySorted R (l1 ++ l2).
Proof.
  induction 1 as [|x l Hl IH Hx]; intros H2 Hc; simpl; [exact H2|].
  constructor.
  - apply IH; [exact H2|]. intros; apply Hc; [right|]; assumption.
  - apply Forall_app. split; [exact Hx|].
    apply Forall_forall. intros b Hb. apply Hc; [left; reflexivity | exact Hb].
Qed.

(** The yields of a loop over an increasing list are increasing when those
    of each iteration are and the iterations tag their yields ([K]) so that
    a later iteration's come after an earlier one's. *)
Lemma sorted_for_each {X Y} (R : Y -> Y -> Prop) (RX : X -> X -> Prop)
    (K : X -> Y -> Prop) (xs : list X) (body : X -> gen Y unit) :
  StronglySorted RX xs ->
  (forall x, In x xs ->
     StronglySorted R (yielded (body x)) /\
     forall y, In y (yielded (body x)) -> K x y) ->
  (forall x x' y y', RX x x' -> K x y -> K x' y' -> R y y') ->
  StronglySorted R (yielded (for_each xs body)).
Proof.
  intros Hxs Hbody Hlt. induction Hxs as [|x xs Hs IH Hx].
  - constructor.
  - cbn [for_each]. rewrite yielded_bind.
    destruct (Hbody x (or_introl eq_refl)) as [Hsx Hkx].
    assert (IH' : StronglySorted R (yielded (for_each xs body)))
      by (apply IH; intros; apply Hbody; right; assumption).
    destruct (snd (body x)) as [e|[]].
    + rewrite app_nil_r. exact Hsx.
    + apply sorted_app; [exact Hsx | exact IH'|].
      intros y y' Hy Hy'. apply in_for_each in Hy'.
      destruct Hy' as (x' & Hx' & Hy').
      rewrite Forall_forall in Hx.
      apply (Hlt x x'); [apply Hx; exact Hx' | apply Hkx; exact Hy|].
      apply Hbody; [right; exact Hx' | exact Hy'].
Qed.

Lemma sorted_for_break {X Y} (R : Y -> Y -> Prop) (RX : X -> X -> Prop)
    (K : X -> Y -> Prop) (xs : list X) (body : X -> gen Y ctl) :
  StronglySorted RX xs ->
  (forall x, In x xs ->
     StronglySorted R (yielded (body x)) /\
     forall y, In y (yielded (body x)) -> K x y) ->
  (forall x x' y y', RX x x' -> K x y -> K x' y' -> R y y') ->
  StronglySorted R (yielded (for_break xs body)).
Proof.
  intros Hxs Hbody Hlt. induction Hxs as [|x xs Hs IH Hx].
  - constructor.
  - cbn [for_break]. rewrite yielded_bind.
    destruct (Hbody x (or_introl eq_refl)) as [Hsx Hkx].
    assert (IH' : StronglySorted R (yielded (for_break xs body)))
      by (apply IH; intros; apply Hbody; right; assumption).
    destruct (snd (body x)) as [e|[|]].
    + rewrite app_nil_r. exact Hsx.
    + apply sorted_app; [exact Hsx | exact IH'|].
      intros y y' Hy Hy'. apply in_for_break in Hy'.
      destruct Hy' as (x' & Hx' & Hy').
      rewrite Forall_forall in Hx.
      apply (Hlt x x'); [apply Hx; exact Hx' | apply Hkx; exact Hy|].
      apply Hbody; [right; exact Hx' | exact Hy'].
    + simpl. rewrite app_nil_r. exact Hsx.
Qed.

(** The same for a loop over [range(a, b)] with a local state. *)
Lemma sorted_for_state_range {S Y} (R : Y -> Y -> Prop) (P : Y -> Prop)
    (I : Z -> S -> Prop) (K : Z -> Y -> Prop)
    (a b : Z) (st : S) (body : S -> Z -> gen Y S) :
  I a st ->
  (forall j st, a <= j < b -> I j st -> total P (I (j + 1)) (body st j)) ->
  (forall j st, a <= j < b -> I j st ->
     StronglySorted R (yielded (body st j)) /\
     forall y, In y (yielded (body st j)) -> K j y) ->
  (forall j j' y y', j < j' -> K j y -> K j' y' -> R y y') ->
  StronglySorted R (yielded (for_state (range a b) st body)) /\
  forall y, In y (yielded (for_state (range a b) st body)) ->
            exists j, a <= j < b /\ K j y.
Proof.
  intros H0 Hstep Hbody Hlt.
  remember (Z.to_nat (b - a)) as n eqn:Hn.
  revert a st Hn H0 Hstep Hbody. induction n as [|n IH];
    intros a st Hn H0 Hstep Hbody.
  - rewrite range_nil by lia. split; [constructor | intros y []].
  - rewrite range_cons by lia. cbn [for_state]. rewrite yielded_bind.
    destruct (Hstep a st ltac:(lia) H0) as [_ (st' & Hs & Hst')].
    destruct (Hbody a st ltac:(lia) H0) as [Hsa Hka].
    rewrite Hs.
    destruct (IH (a + 1) st' ltac:(lia) Hst') as [IHs IHk].
    { intros j st2 Hj. apply Hstep. lia. }
    { intros j st2 Hj. apply Hbody. lia. }
    split.
    + apply sorted_app; [exact Hsa | exact IHs|].
      intros y y' Hy Hy'. destruct (IHk y' Hy') as (j' & Hj' & Hk').
      apply (Hlt a j'); [lia | apply Hka; exact Hy | exact Hk'].
    + intros y Hy. apply in_app_or in Hy. destruct Hy as [Hy|Hy].
      * exists a. split; [lia | apply Hka; exact Hy].
      * destruct (IHk y Hy) as (j & Hj & Hk). exists j. split; [lia | exact Hk].
Qed.

Lemma NoDup_for_each {X Y} (xs : list X) (body : X -> gen Y unit) :
  NoDup xs ->
  (forall x, In x xs -> NoDup (yielded (body x))) ->
  (forall x x' y, In x xs -> In x' xs ->
     In y (yielded (body x)) -> In y (yielded (body x')) -> x = x') ->
  NoDup (yielded (for_each xs body)).
Proof.
  intros Hxs. induction Hxs as [|x xs Hx Hn IH]; intros Hb Hd.
  - constructor.
  - cbn [for_each]. rewrite yielded_bind.
    assert (IH' : NoDup (yielded (for_each xs body))).
    { apply IH; [intros; apply Hb; right; assumption|].
      intros x1 x2 y H1 H2. apply Hd; right; assumption. }
    destruct (snd (body x)) as [e|[]].
    + rewrite app_nil_r. apply Hb. left; reflexivity.
    + apply NoDup_app; [apply Hb; left; reflexivity | exact IH'|].
      intros y Hy Hy'. apply in_for_each in Hy'.
      destruct Hy' as (x' & Hx' & Hy').
      assert (x = x') by (apply (Hd x x' y); auto; [left; reflexivity | right; exact Hx']).
      subst x'. contradiction.
Qed.

(** ** The rows of one anchor pair *)

Lemma in_yield_body {A} (e : E A) (y : A) :
  In y (yielded (r <- lift e ;; yield r)) <-> e = inr y.
Proof.
  destruct e as [x|a]; simpl.
  - split; [tauto | discriminate].
  - split; [intros [->|[]]; reflexivity | intros H; injection H as ->; auto].
Qed.

Lemma sorted_yield_body {A} (R : A -> A -> Prop) (e : E A) :
  StronglySorted R (yielded (r <- lift e ;; yield r)).
Proof. destruct e as [x|a]; simpl; repeat constructor. Qed.

Lemma lex3_irrefl (a : Z * Z * Z) : ~ lex3 a a.
Proof. destruct a as [[a1 a2] a3]. unfold lex3. lia. Qed.

Lemma lex4_irrefl (a : Z * Z * Z * Z) : ~ lex4 a a.
Proof. destruct a as [[[a1 a2] a3] a4]. unfold lex4, lex3. lia. Qed.

Lemma expand_sorted (self : FindTALTask) (t j : Z) :
  StronglySorted scan_before (yielded (expand self t j)) /\
  forall r, In r (yielded (expand self t j)) ->
    exists cut spacer_length,
      _create_tal_pair self cut t j spacer_length = inr r.
Proof.
  set (K := fun (sl : Z) (r : row) =>
              exists cut, _create_tal_pair self cut t j sl = inr r).
  assert (Hinner : forall sl,
            StronglySorted scan_before
              (yielded (for_each
                 (range (t + min_dist self / 2) (j - min_dist self / 2))
                 (fun cut => r <- lift (_create_tal_pair self cut t j sl) ;;
                             yield r))) /\
            forall r, In r (yielded (for_each
                 (range (t + min_dist self / 2) (j - min_dist self / 2))
                 (fun cut => r <- lift (_create_tal_pair self cut t j sl) ;;
                             yield r))) -> K sl r).
  { intros sl. split.
    - apply sorted_for_each
        with (RX := Z.lt)
             (K := fun cut r => _create_tal_pair self cut t j sl = inr r).
      + apply range_sorted.
      + intros cut _. split; [apply sorted_yield_body|].
        intros r Hr. apply in_yield_body in Hr. exact Hr.
      + intros c c' r r' Hlt Hr Hr'.
        destruct (create_inv _ _ _ _ _ _ Hr)
          as (_ & _ & _ & _ & _ & _ & H1 & H2 & H3 & H4 & _).
        destruct (create_inv _ _ _ _ _ _ Hr')
          as (_ & _ & _ & _ & _ & _ & H1' & H2' & H3' & H4' & _).
        unfold scan_before, lex4, lex3. lia.
    - intros r Hr. apply in_for_each in Hr. destruct Hr as (cut & _ & Hr).
      apply in_yield_body in Hr. exists cut. exact Hr. }
  split.
  - unfold expand. apply sorted_for_each with (RX := Z.lt) (K := K).
    + apply range_sorted.
    + intros sl _. apply Hinner.
    + intros sl sl' r r' Hlt [c Hr] [c' Hr'].
      destruct (create_inv _ _ _ _ _ _ Hr)
        as (_ & _ & _ & _ & _ & _ & H1 & H2 & H3 & H4 & _).
      destruct (create_inv _ _ _ _ _ _ Hr')
        as (_ & _ & _ & _ & _ & _ & H1' & H2' & H3' & H4' & _).
      unfold scan_before, lex4, lex3. lia.
  - intros r Hr. unfold expand in Hr. apply in_for_each in Hr.
    destruct Hr as (sl & _ & Hr). destruct (Hinner sl) as [_ Hk].
    destruct (Hk r Hr) as [cut Hc]. exists cut, sl. exact Hc.
Qed.

(** X10: an anchor pair [(t, j)] that indexes the sequence gives
    [(max_spacer - min_spacer + 1) * (j - t - 2*(min_dist//2))] rows, a
    factor being zero when it would be negative. *)
Theorem X10_expand_count (self : FindTALTask) (s sid cu cd : str) (t j : Z) :
  sequence self = Some s -> sequence_id self = Some sid ->
  getitem s t = inr cu -> getitem s j = inr cd ->
  List.length (yielded (expand self t j))
  = (Z.to_nat (max_spacer self - min_spacer self + 1)
     * Z.to_nat (j - t - 2 * (min_dist self / 2)))%nat.
Proof.
  intros Hs Hid Ht Hj. unfold expand.
  pose proof (for_each_length
                (range (min_spacer self) (max_spacer self + 1))
                (fun sl =>
                   for_each
                     (range (t + min_dist self / 2) (j - min_dist self / 2))
                     (fun cut =>
                        r <- lift (_create_tal_pair self cut t j sl) ;;
                        yield r))
                (Z.to_nat (j - t - 2 * (min_dist self / 2)))) as H.
  destruct H as [_ H].
  - intros sl _.
    pose proof (for_each_length
                  (range (t + min_dist self / 2) (j - min_dist self / 2))
                  (fun cut =>
                     r <- lift (_create_tal_pair self cut t j sl) ;; yield r)
                  1%nat) as H.
    destruct H as [Hr Hl].
    + intros cut _.
      destruct (create_returns self s sid Hs Hid cut t j sl _ _ Ht Hj)
        as [r Hr].
      rewrite Hr, bind_lift_inr. split; reflexivity.
    + split; [exact Hr|]. rewrite Hl, length_range. lia.
  - rewrite H, length_range. f_equal. lia.
Qed.

Lemma X10_witness :
  List.length (yielded (expand test_task_unfiltered 0 45))
  = (Z.to_nat (18 - 14 + 1) * Z.to_nat (45 - 0 - 2 * (42 / 2)))%nat.
Proof.
  exact (X10_expand_count test_task_unfiltered test_sequence (py "seq1")
           (py "T") (py "A") 0 45 eq_refl eq_refl eq_refl eq_refl).
Defined.

(** ** Order of the scan *)

Section ScanOrder.
Variables (self : FindTALTask) (s sid ub db : str).
Hypothesis Hseq : sequence self = Some s.
Hypothesis Hid : sequence_id self = Some sid.
Hypothesis Hcomp : dict_getitem COMPLEMENT ub = inr db.

Lemma scan_step_sorted (q : list Z) (j : Z) :
  0 <= j < len s -> queue_inv self s ub j q ->
  StronglySorted scan_before (yielded (scan_step self s ub q j)) /\
  forall r, In r (yielded (scan_step self s ub q j)) -> TAL2_start r = j - 1.
Proof.
  intros Hj (Hsorted & _ & _). unfold scan_step.
  destruct (getitem_nonneg s j Hj) as [c Hc]. rewrite Hc, bind_lift_inr.
  destruct (str_eqb [c] ub); [split; [constructor | intros r []]|].
  rewrite Hcomp, bind_lift_inr.
  destruct (str_eqb [c] db); [|split; [constructor | intros r []]].
  set (body := fun t : Z =>
                 if t <=? j - min_dist self
                 then expand self t j ;; ret Next else ret Break).
  assert (Hbody : forall t,
            StronglySorted scan_before (yielded (body t)) /\
            forall r, In r (yielded (body t)) ->
              exists cut sl, _create_tal_pair self cut t j sl = inr r).
  { intros t. unfold body. destruct (t <=? j - min_dist self).
    - rewrite yielded_bind. destruct (expand_sorted self t j) as [He Hk].
      assert (Hnil : match snd (expand self t j) with
                     | inl _ => [] | inr _ => yielded (@ret row ctl Next)
                     end = [])
        by (destruct (snd (expand self t j)); reflexivity).
      rewrite Hnil, app_nil_r. split; assumption.
    - split; [constructor | intros r []]. }
  assert (Hyield : yielded (for_break (evict q (j - max_dist self)) body ;;
                            ret (evict q (j - max_dist self)))
                   = yielded (for_break (evict q (j - max_dist self)) body)).
  { rewrite yielded_bind.
    destruct (snd (for_break (evict q (j - max_dist self)) body));
      simpl; apply app_nil_r. }
  fold body. rewrite Hyield. split.
  - apply sorted_for_break
      with (RX := Z.lt)
           (K := fun t r =>
                   exists cut sl, _create_tal_pair self cut t j sl = inr r).
    + apply evict_sorted. exact Hsorted.
    + intros t _. apply Hbody.
    + intros t t' r r' Hlt (c1 & sl & Hr) (c2 & sl' & Hr').
      destruct (create_inv _ _ _ _ _ _ Hr)
        as (_ & _ & _ & _ & _ & _ & H1 & H2 & H3 & H4 & _).
      destruct (create_inv _ _ _ _ _ _ Hr')
        as (_ & _ & _ & _ & _ & _ & H1' & H2' & H3' & H4' & _).
      unfold scan_before, lex4, lex3. lia.
  - intros r Hr. apply in_for_break in Hr. destruct Hr as (t & _ & Hr).
    destruct (Hbody t) as [_ Hk]. destruct (Hk r Hr) as (c1 & sl & Hcr).
    destruct (create_inv _ _ _ _ _ _ Hcr)
      as (_ & _ & _ & _ & _ & _ & _ & _ & H3 & _). exact H3.
Qed.

Lemma scan_body_sorted :
  StronglySorted scan_before (yielded (scan_body self ub)).
Proof.
  unfold scan_body, self_sequence. rewrite Hseq, bind_lift_inr, yielded_bind.
  assert (Hnil : match snd (for_state (range 0 (len s)) []
                              (scan_step self s ub)) with
                 | inl _ => [] | inr _ => yielded (@ret row unit tt)
                 end = [])
    by (destruct (snd (for_state (range 0 (len s)) [] (scan_step self s ub)));
        reflexivity).
  rewrite Hnil, app_nil_r.
  apply (sorted_for_state_range scan_before (scan_row self s ub db)
           (queue_inv self s ub) (fun j r => TAL2_start r = j - 1)).
  - apply (queue_inv_init self s ub).
  - intros j q Hj Hq.
    apply (scan_step_total self s sid ub db Hseq Hid Hcomp); assumption.
  - intros j q Hj Hq. apply scan_step_sorted; assumption.
  - intros j j' r r' Hlt Hr Hr'. unfold scan_before, lex4. lia.
Qed.

Lemma scan_body_exact (r : row) :
  In r (yielded (scan_body self ub)) <-> scan_row self s ub db r.
Proof.
  split.
  - intros Hr.
    exact (total_in _ _ _ r
             (scan_body_total self s sid ub db Hseq Hid Hcomp) Hr).
  - intros (cut & t & j & sl & Hc & Ht & Hj & Hgt & Hgj & Hd & Hsl & Hcut).
    destruct (scan_body_complete self s sid ub db Hseq Hid Hcomp cut t j sl)
      as (r' & Hr' & Hin); try assumption.
    rewrite Hc in Hr'. injection Hr' as <-. exact Hin.
Qed.
End ScanOrder.

(** ** The filtered enumeration, exactly *)

Section FilteredExact.
Variables (self : FindTALTask) (s sid ub db : str) (fb : Z).
Hypothesis Hseq : sequence self = Some s.
Hypothesis Hid : sequence_id self = Some sid.
Hypothesis Hcomp : dict_getitem COMPLEMENT ub = inr db.

Local Abbreviation ups :=
  (findAll s ub (fb - max_dist self / 2 - 1) (Some (fb - min_dist self / 2 - 1))).
Local Abbreviation downs :=
  (findAll s db (fb + (min_dist self + 1) / 2)
     (Some (fb + (max_dist self + 1) / 2 + 1))).

Lemma spacer_rows_facts (cut up_pos down_pos : Z) (cu cd : str) :
  getitem s up_pos = inr cu -> getitem s down_pos = inr cd ->
  raised (spacer_rows self cut up_pos down_pos) = None /\
  List.length (yielded (spacer_rows self cut up_pos down_pos))
  = Z.to_nat (max_spacer self - min_spacer self + 1) /\
  forall sl, min_spacer self <= sl <= max_spacer self ->
    exists r, _create_tal_pair self cut up_pos down_pos sl = inr r /\
              In r (yielded (spacer_rows self cut up_pos down_pos)).
Proof.
  intros Hu Hd.
  assert (Hone : forall sl,
            raised (r <- lift (_create_tal_pair self cut up_pos down_pos sl) ;;
                    yield r) = None /\
            List.length
              (yielded (r <- lift (_create_tal_pair self cut up_pos down_pos sl) ;;
                        yield r)) = 1%nat).
  { intros sl.
    destruct (create_returns self s sid Hseq Hid cut up_pos down_pos sl
                _ _ Hu Hd) as [r Hr].
    rewrite Hr, bind_lift_inr. split; reflexivity. }
  destruct (for_each_length (range (min_spacer self) (max_spacer self + 1))
              (fun sl =>
                 r <- lift (_create_tal_pair self cut up_pos down_pos sl) ;;
                 yield r) 1%nat) as [Hr Hl]; [intros sl _; apply Hone|].
  split; [exact Hr | split].
  - unfold spacer_rows. rewrite Hl, length_range. lia.
  - intros sl Hsl.
    destruct (create_returns self s sid Hseq Hid cut up_pos down_pos sl
                _ _ Hu Hd) as [r Hcr].
    exists r. split; [exact Hcr|]. unfold spacer_rows.
    apply for_each_in with (x := sl).
    + intros sl' _. apply Hone.
    + apply in_range. lia.
    + apply in_yield_body. exact Hcr.
Qed.

Lemma spacer_rows_sorted (cut up_pos down_pos : Z) :
  StronglySorted filtered_before (yielded (spacer_rows self cut up_pos down_pos)) /\
  forall r, In r (yielded (spacer_rows self cut up_pos down_pos)) ->
    exists sl, min_spacer self <= sl <= max_spacer self /\
               _create_tal_pair self cut up_pos down_pos sl = inr r.
Proof.
  split.
  - unfold spacer_rows.
    apply sorted_for_each
      with (RX := Z.lt)
           (K := fun sl r =>
                   _create_tal_pair self cut up_pos down_pos sl = inr r).
    + apply range_sorted.
    + intros sl _. split; [apply sorted_yield_body|].
      intros r Hr. apply in_yield_body in Hr. exact Hr.
    + intros sl sl' r r' Hlt Hr Hr'.
      destruct (create_inv _ _ _ _ _ _ Hr)
        as (_ & _ & _ & _ & _ & _ & H1 & H2 & H3 & H4 & _).
      destruct (create_inv _ _ _ _ _ _ Hr')
        as (_ & _ & _ & _ & _ & _ & H1' & H2' & H3' & H4' & _).
      unfold filtered_before, lex3. lia.
  - intros r Hr. unfold spacer_rows in Hr. apply in_for_each in Hr.
    destruct Hr as (sl & Hsl & Hr). apply in_range in Hsl.
    apply in_yield_body in Hr. exists sl. split; [lia | exact Hr].
Qed.

Hypothesis Hlo : 0 <= fb - max_dist self / 2.
Hypothesis Hhi : fb + (max_dist self + 1) / 2 + 1 <= len s.

(** Inside the sequence the filtered branch is three nested loops. *)
Lemma filtered_body_loops :
  filtered_body self fb ub db
  = for_each ups (fun up_pos =>
      for_each downs (fun down_pos =>
        cu <- lift (getitem s up_pos) ;;
        assert_ (str_eqb cu ub) ;;
        cd <- lift (getitem s down_pos) ;;
        assert_ (str_eqb cd db) ;;
        spacer_rows self fb up_pos down_pos)).
Proof.
  unfold filtered_body, self_sequence. rewrite Hseq.
  replace (fb - max_dist self / 2 <? 0) with false by lia.
  rewrite bind_lift_inr, bind_ret.
  replace (fb + (max_dist self + 1) / 2 + 1 >? len s) with false by lia.
  rewrite bind_lift_inr. reflexivity.
Qed.

Lemma checked_rows (up_pos down_pos : Z) :
  In up_pos ups -> In down_pos downs ->
  (cu <- lift (getitem s up_pos) ;;
   assert_ (str_eqb cu ub) ;;
   cd <- lift (getitem s down_pos) ;;
   assert_ (str_eqb cd db) ;;
   spacer_rows self fb up_pos down_pos)
  = spacer_rows self fb up_pos down_pos.
Proof.
  intros Hup Hdown.
  destruct (COMPLEMENT_one_char _ _ Hcomp) as (c & d & Hub & Hdb).
  rewrite (findAll_getitem _ _ _ _ _ _ Hub Hup), bind_lift_inr, str_eqb_refl.
  unfold assert_ at 1. rewrite bind_ret.
  rewrite (findAll_getitem _ _ _ _ _ _ Hdb Hdown), bind_lift_inr, str_eqb_refl.
  unfold assert_. rewrite bind_ret. reflexivity.
Qed.

Lemma for_each_ext_in {X Y} (xs : list X) (f g : X -> gen Y unit) :
  (forall x, In x xs -> f x = g x) -> for_each xs f = for_each xs g.
Proof.
  induction xs as [|x xs IH]; intros H; [reflexivity|].
  cbn [for_each]. rewrite (H x (or_introl eq_refl)), IH; [reflexivity|].
  intros; apply H; right; assumption.
Qed.

Lemma filtered_body_rows :
  filtered_body self fb ub db
  = for_each ups (fun up_pos =>
      for_each downs (fun down_pos => spacer_rows self fb up_pos down_pos)).
Proof.
  rewrite filtered_body_loops. apply for_each_ext_in. intros up Hup.
  apply for_each_ext_in. intros down Hdown. apply checked_rows; assumption.
Qed.

Lemma filtered_body_complete (up_pos down_pos sl : Z) :
  In up_pos ups -> In down_pos downs ->
  min_spacer self <= sl <= max_spacer self ->
  exists r, _create_tal_pair self fb up_pos down_pos sl = inr r /\
            In r (yielded (filtered_body self fb ub db)).
Proof.
  intros Hup Hdown Hsl.
  destruct (COMPLEMENT_one_char _ _ Hcomp) as (c & d & Hub & Hdb).
  assert (Hrows : forall u w, In u ups -> In w downs ->
            raised (spacer_rows self fb u w) = None).
  { intros u w Hu Hw.
    apply (spacer_rows_facts fb u w ub db);
      [exact (findAll_getitem _ _ _ _ _ _ Hub Hu)
      |exact (findAll_getitem _ _ _ _ _ _ Hdb Hw)]. }
  destruct (spacer_rows_facts fb up_pos down_pos ub db
              (findAll_getitem _ _ _ _ _ _ Hub Hup)
              (findAll_getitem _ _ _ _ _ _ Hdb Hdown))
    as (_ & _ & Hall).
  destruct (Hall sl Hsl) as (r & Hcr & Hin).
  exists r. split; [exact Hcr|]. rewrite filtered_body_rows.
  apply for_each_in with (x := up_pos); [|exact Hup|].
  - intros u Hu.
    apply (for_each_length downs (fun w => spacer_rows self fb u w)
             (Z.to_nat (max_spacer self - min_spacer self + 1))).
    intros w Hw.
    destruct (spacer_rows_facts fb u w ub db
                (findAll_getitem _ _ _ _ _ _ Hub Hu)
                (findAll_getitem _ _ _ _ _ _ Hdb Hw)) as (Hr & Hl & _).
    split; assumption.
  - apply for_each_in with (x := down_pos); [|exact Hdown | exact Hin].
    intros w Hw. apply Hrows; assumption.
Qed.

Lemma filtered_body_count :
  List.length (yielded (filtered_body self fb ub db))
  = (List.length ups * (List.length downs
       * Z.to_nat (max_spacer self - min_spacer self + 1)))%nat.
Proof.
  destruct (COMPLEMENT_one_char _ _ Hcomp) as (c & d & Hub & Hdb).
  rewrite filtered_body_rows.
  apply for_each_length. intros u Hu.
  apply for_each_length. intros w Hw.
  destruct (spacer_rows_facts fb u w ub db
              (findAll_getitem _ _ _ _ _ _ Hub Hu)
              (findAll_getitem _ _ _ _ _ _ Hdb Hw)) as (Hr & Hl & _).
  split; assumption.
Qed.

Lemma filtered_body_sorted :
  StronglySorted filtered_before (yielded (filtered_body self fb ub db)).
Proof.
  rewrite filtered_body_rows.
  assert (Hin : forall u,
            forall r, In r (yielded (for_each downs
                                (fun w => spacer_rows self fb u w))) ->
              exists w sl, _create_tal_pair self fb u w sl = inr r).
  { intros u r Hr. apply in_for_each in Hr. destruct Hr as (w & _ & Hr).
    destruct (spacer_rows_sorted fb u w) as [_ Hk].
    destruct (Hk r Hr) as (sl & _ & Hcr). exists w, sl. exact Hcr. }
  apply sorted_for_each
    with (RX := Z.lt)
         (K := fun u r => exists w sl, _create_tal_pair self fb u w sl = inr r).
  - unfold findAll. apply filter_sorted, range_sorted.
  - intros u _. split; [|apply Hin].
    apply sorted_for_each
      with (RX := Z.lt)
           (K := fun w r => exists sl, _create_tal_pair self fb u w sl = inr r).
    + unfold findAll. apply filter_sorted, range_sorted.
    + intros w _. destruct (spacer_rows_sorted fb u w) as [Hs Hk].
      split; [exact Hs|]. intros r Hr. destruct (Hk r Hr) as (sl & _ & Hcr).
      exists sl. exact Hcr.
    + intros w w' r r' Hlt [sl Hr] [sl' Hr'].
      destruct (create_inv _ _ _ _ _ _ Hr)
        as (_ & _ & _ & _ & _ & _ & H1 & H2 & H3 & H4 & _).
      destruct (create_inv _ _ _ _ _ _ Hr')
        as (_ & _ & _ & _ & _ & _ & H1' & H2' & H3' & H4' & _).
      unfold filtered_before, lex3. lia.
  - intros u u' r r' Hlt (w & sl & Hr) (w' & sl' & Hr').
    destruct (create_inv _ _ _ _ _ _ Hr)
      as (_ & _ & _ & _ & _ & _ & H1 & H2 & H3 & H4 & _).
    destruct (create_inv _ _ _ _ _ _ Hr')
      as (_ & _ & _ & _ & _ & _ & H1' & H2' & H3' & H4' & _).
    unfold filtered_before, lex3. lia.
Qed.
End FilteredExact.

(** ** The enumeration, exactly *)

Lemma find_complete (self : FindTALTask) (s sid : str) (r : row) :
  sequence self = Some s -> sequence_id self = Some sid ->
  Forall valid_base (upstream_bases self) ->
  emitted_row self s r ->
  In r (yielded (_find_tal_pairs_for_seq self)).
Proof.
  intros Hs Hid Hv (ub & db & Hub & Hc & Hrow).
  unfold _find_tal_pairs_for_seq. apply for_each_in with (x := ub).
  - intros b Hb. rewrite Forall_forall in Hv.
    destruct (valid_base_complement b (Hv b Hb)) as [d Hd].
    exact (total_raised _ _ _ (upstream_body_total self s sid Hs Hid b d Hd)).
  - exact Hub.
  - unfold upstream_body. rewrite Hc, bind_lift_inr.
    destruct (filter_base self) as [fb|].
    + destruct Hrow as (up & down & sl & Hcr & Hup & Hdown & _ & _ & Hsl & Hlo & Hhi).
      destruct (filtered_body_complete self s sid ub db fb Hs Hid Hc Hlo Hhi
                  up down sl Hup Hdown Hsl) as (r' & Hr' & Hin).
      rewrite Hcr in Hr'. injection Hr' as <-. exact Hin.
    + apply (scan_body_exact self s sid ub db Hs Hid Hc). exact Hrow.
Qed.

(** X11: when every upstream base is a nucleotide, the enumeration yields
    exactly the rows of [emitted_row]: in the scan, one for every upstream
    occurrence [t] and downstream occurrence [j] with
    [j - max_dist <= t <= j - min_dist], every spacer length of
    [[min_spacer, max_spacer]] and every cut site of
    [[t + min_dist//2, j - min_dist//2)]; with a filter, one for every
    pair of occurrences in the two windows and every spacer length. None
    is missing and nothing else is yielded. *)
Theorem X11_enumeration_exact (self : FindTALTask) (s sid : str) :
  sequence self = Some s -> sequence_id self = Some sid ->
  Forall valid_base (upstream_bases self) ->
  forall r,
    In r (yielded (_find_tal_pairs_for_seq self)) <-> emitted_row self s r.
Proof.
  intros Hs Hid Hv r. split.
  - apply (find_sound self s sid Hs Hid).
  - apply (find_complete self s sid r Hs Hid Hv).
Qed.

Lemma X11_witness :
  exists r,
    In r (yielded (_find_tal_pairs_for_seq test_task_filtered)) /\
    emitted_row test_task_filtered test_sequence r.
Proof.
  destruct test_row_emitted as (r0 & _ & Hin).
  exists r0. split; [exact Hin|].
  assert (Hv : Forall valid_base (upstream_bases test_task_filtered))
    by (repeat constructor).
  exact (proj1 (X11_enumeration_exact test_task_filtered test_sequence
                  (py "seq1") eq_refl eq_refl Hv r0) Hin).
Defined.

Lemma scan_before_irrefl (r : row) : ~ scan_before r r.
Proof. apply lex4_irrefl. Qed.

Lemma filtered_before_irrefl (r : row) : ~ filtered_before r r.
Proof. apply lex3_irrefl. Qed.

Lemma upstream_body_sorted (self : FindTALTask) (s sid ub : str) :
  sequence self = Some s -> sequence_id self = Some sid ->
  valid_base ub ->
  match filter_base self with
  | None => StronglySorted scan_before (yielded (upstream_body self ub))
  | Some _ => StronglySorted filtered_before (yielded (upstream_body self ub))
  end.
Proof.
  intros Hs Hid Hv. destruct (valid_base_complement ub Hv) as [db Hc].
  unfold upstream_body. rewrite Hc, bind_lift_inr.
  destruct (filter_base self) as [fb|].
  - destruct (Z_lt_dec (fb - max_dist self / 2) 0) as [Hlo|Hlo];
      [|destruct (Z_gt_dec (fb + (max_dist self + 1) / 2 + 1) (len s))
          as [Hhi|Hhi]].
    + rewrite (filtered_body_skip self s ub db fb Hs (or_introl Hlo)).
      constructor.
    + rewrite (filtered_body_skip self s ub db fb Hs (or_intror Hhi)).
      constructor.
    + apply (filtered_body_sorted self s ub db fb Hs Hc); lia.
  - apply (scan_body_sorted self s sid ub db Hs Hid Hc).
Qed.

(** X12: the rows of one upstream base come in strictly increasing order:
    in the scan by downstream anchor, then upstream anchor, then spacer
    length, then cut site; with a filter by upstream anchor, then
    downstream anchor, then spacer length. So no row of that base is
    yielded twice. *)
Theorem X12_rows_increasing (self : FindTALTask) (s sid upstream_base : str) :
  sequence self = Some s -> sequence_id self = Some sid ->
  valid_base upstream_base ->
  match filter_base self with
  | None =>
      StronglySorted scan_before (yielded (upstream_body self upstream_base))
  | Some _ =>
      StronglySorted filtered_before
        (yielded (upstream_body self upstream_base))
  end /\
  NoDup (yielded (upstream_body self upstream_base)).
Proof.
  intros Hs Hid Hv.
  pose proof (upstream_body_sorted self s sid upstream_base Hs Hid Hv) as H.
  split; [exact H|].
  destruct (filter_base self).
  - exact (sorted_NoDup _ _ filtered_before_irrefl H).
  - exact (sorted_NoDup _ _ scan_before_irrefl H).
Qed.

Lemma X12_witness :
  StronglySorted filtered_before
    (yielded (upstream_body test_task_filtered (py "T"))) /\
  NoDup (yielded (upstream_body test_task_filtered (py "T"))).
Proof.
  apply (X12_rows_increasing test_task_filtered test_sequence (py "seq1")
           (py "T") eq_refl eq_refl).
  left. reflexivity.
Defined.

Lemma upstream_body_anchor (self : FindTALTask) (s sid b : str) (r : row) :
  sequence self = Some s -> sequence_id self = Some sid ->
  In r (yielded (upstream_body self b)) ->
  getitem s (TAL1_start r - 1) = inr b.
Proof.
  intros Hs Hid Hr.
  destruct (dict_getitem COMPLEMENT b) as [e|d] eqn:Hc.
  - unfold upstream_body in Hr. rewrite Hc in Hr. destruct Hr.
  - pose proof (total_in _ _ _ r (upstream_body_total self s sid Hs Hid b d Hc) Hr)
      as Hrow.
    assert (Hq : exists cut up down sl,
               _create_tal_pair self cut up down sl = inr r /\
               getitem s up = inr b).
    { destruct (filter_base self) as [fb|].
      - destruct Hrow as (up & down & sl & Hcr & _ & _ & Hu & _).
        exists fb, up, down, sl. auto.
      - destruct Hrow as (cut & t & j & sl & Hcr & _ & _ & Hu & _).
        exists cut, t, j, sl. auto. }
    destruct Hq as (cut & up & down & sl & Hcr & Hu).
    destruct (create_inv _ _ _ _ _ _ Hcr)
      as (_ & _ & _ & _ & _ & _ & _ & H2 & _).
    replace (TAL1_start r - 1) with up by lia. exact Hu.
Qed.

(** X13: when the upstream bases are pairwise different, the whole
    enumeration yields no row twice. *)
Theorem X13_no_duplicate_rows (self : FindTALTask) (s sid : str) :
  sequence self = Some s -> sequence_id self = Some sid ->
  NoDup (upstream_bases self) ->
  NoDup (yielded (_find_tal_pairs_for_seq self)).
Proof.
  intros Hs Hid Hnd. unfold _find_tal_pairs_for_seq.
  apply NoDup_for_each; [exact Hnd | |].
  - intros b _. destruct (dict_getitem COMPLEMENT b) as [e|d] eqn:Hc.
    + unfold upstream_body. rewrite Hc. constructor.
    + assert (Hv : valid_base b).
      { unfold valid_base. simpl.
        destruct (COMPLEMENT_cases _ _ Hc)
          as [[-> _]|[[-> _]|[[-> _]|[-> _]]]]; auto. }
      pose proof (upstream_body_sorted self s sid b Hs Hid Hv) as H.
      destruct (filter_base self).
      * exact (sorted_NoDup _ _ filtered_before_irrefl H).
      * exact (sorted_NoDup _ _ scan_before_irrefl H).
  - intros b b' r _ _ Hr Hr'.
    pose proof (upstream_body_anchor self s sid b r Hs Hid Hr) as H.
    pose proof (upstream_body_anchor self s sid b' r Hs Hid Hr') as H'.
    rewrite H in H'. injection H' as ->. reflexivity.
Qed.

Lemma X13_witness :
  NoDup (yielded (_find_tal_pairs_for_seq test_task_filtered)).
Proof.
  apply (X13_no_duplicate_rows test_task_filtered test_sequence (py "seq1")
           eq_refl eq_refl).
  repeat constructor. intros [].
Defined.

(** X14: with a filter whose site passes the boundary test, one upstream
    base yields as many rows as there are upstream occurrences in its
    window, times downstream occurrences in theirs, times spacer
    lengths. *)
Theorem X14_filtered_count (self : FindTALTask) (s sid : str) (fb : Z)
    (upstream_base downstream_base : str) :
  sequence self = Some s -> sequence_id self = Some sid ->
  filter_base self = Some fb ->
  dict_getitem COMPLEMENT upstream_base = inr downstream_base ->
  0 <= fb - max_dist self / 2 ->
  fb + (max_dist self + 1) / 2 + 1 <= len s ->
  List.length (yielded (upstream_body self upstream_base))
  = (List.length (findAll s upstream_base (fb - max_dist self / 2 - 1)
                    (Some (fb - min_dist self / 2 - 1)%Z))
     * (List.length (findAll s downstream_base (fb + (min_dist self + 1) / 2)
                       (Some (fb + (max_dist self + 1) / 2 + 1)%Z))
        * Z.to_nat (max_spacer self - min_spacer self + 1)))%nat.
Proof.
  intros Hs Hid Hf Hc Hlo Hhi.
  unfold upstream_body. rewrite Hc, bind_lift_inr, Hf.
  apply (filtered_body_count self s sid upstream_base downstream_base fb
           Hs Hid Hc Hlo Hhi).
Qed.

Lemma X14_witness :
  List.length (yielded (upstream_body test_task_filtered (py "T")))
  = (List.length (findAll test_sequence (py "T") (31 - 54 / 2 - 1)
                    (Some (31 - 42 / 2 - 1)%Z))
     * (List.length (findAll test_sequence (py "A") (31 + (42 + 1) / 2)
                       (Some (31 + (54 + 1) / 2 + 1)%Z))
        * Z.to_nat (18 - 14 + 1)))%nat.
Proof.
  apply (X14_filtered_count test_task_filtered test_sequence (py "seq1") 31
           (py "T") (py "A") eq_refl eq_refl eq_refl eq_refl).
  - vm_compute. discriminate.
  - vm_compute. discriminate.
Defined.

(** ** The two modes compared *)

Lemma create_without_filter (self : FindTALTask)
    (cut up_pos down_pos spacer_length : Z) :
  _create_tal_pair (without_filter self) cut up_pos down_pos spacer_length
  = _create_tal_pair self cut up_pos down_pos spacer_length.
Proof. reflexivity. Qed.

(** X15: a row of the filtered enumeration is also a row of the scan of
    the same object without filter when its anchors are at most
    [max_dist] apart and its downstream anchor is beyond
    [filter_base + min_dist//2] (for [0 <= min_dist] and nucleotide
    upstream bases); the filtered rows outside these two conditions are
    the ones the scan does not have. *)
Theorem X15_filtered_rows_in_scan (self : FindTALTask) (s sid : str) (fb : Z)
    (r : row) :
  sequence self = Some s -> sequence_id self = Some sid ->
  filter_base self = Some fb ->
  Forall valid_base (upstream_bases self) ->
  0 <= min_dist self ->
  In r (yielded (_find_tal_pairs_for_seq self)) ->
  (TAL2_start r + 1) - (TAL1_start r - 1) <= max_dist self ->
  fb + min_dist self / 2 < TAL2_start r + 1 ->
  In r (yielded (_find_tal_pairs_for_seq (without_filter self))).
Proof.
  intros Hs Hid Hf Hv Hmd Hr Hdist Hdown.
  destruct (find_sound self s sid Hs Hid r Hr) as (ub & db & Hub & Hc & Hrow).
  rewrite Hf in Hrow.
  destruct Hrow as (up & down & sl & Hcr & Hup & Hdn & Hgu & Hgd & Hsl & Hlo & Hhi).
  destruct (create_inv _ _ _ _ _ _ Hcr)
    as (_ & _ & _ & _ & _ & _ & _ & H2 & H3 & _).
  destruct (COMPLEMENT_one_char _ _ Hc) as (c & d & Hcu & Hcd).
  assert (Hup0 : 0 <= up)
    by (eapply findAll_nonneg; [exact Hcu | | exact Hup]; lia).
  apply in_findAll in Hup. apply in_findAll in Hdn.
  destruct Hup as [Hup _]. destruct Hdn as [Hdn _].
  apply (find_complete (without_filter self) s sid r Hs Hid Hv).
  exists ub, db. split; [exact Hub | split; [exact Hc|]].
  cbn [filter_base without_filter].
  exists fb, up, down, sl. rewrite create_without_filter.
  cbn [max_dist min_dist min_spacer max_spacer without_filter].
  repeat split; try assumption; dlia.
Qed.

Lemma X15_witness :
  exists r,
    In r (yielded (_find_tal_pairs_for_seq test_task_filtered)) /\
    In r (yielded (_find_tal_pairs_for_seq (without_filter test_task_filtered))).
Proof.
  destruct (create_returns test_task_filtered test_sequence (py "seq1")
              eq_refl eq_refl 31 4 58 14 (py "T") (py "A") eq_refl eq_refl)
    as [r0 Hr0].
  assert (Hin : In r0 (yielded (_find_tal_pairs_for_seq test_task_filtered))).
  { destruct (filtered_body_complete test_task_filtered test_sequence
                (py "seq1") (py "T") (py "A") 31 eq_refl eq_refl eq_refl
                ltac:(vm_compute; discriminate) ltac:(vm_compute; discriminate)
                4 58 14) as (r' & Hr' & Hin').
    - vm_compute. auto.
    - vm_compute. auto 10.
    - vm_compute. split; discriminate.
    - rewrite Hr0 in Hr'. injection Hr' as <-.
      unfold _find_tal_pairs_for_seq. cbn [upstream_bases test_task_filtered
        example_task with_sequence __init__ for_each].
      apply in_bind. left. unfold upstream_body.
      change (dict_getitem COMPLEMENT (py "T")) with (@inr exn str (py "A")).
      rewrite bind_lift_inr. exact Hin'. }
  exists r0. split; [exact Hin|].
  destruct (create_inv _ _ _ _ _ _ Hr0)
    as (_ & _ & _ & _ & _ & _ & _ & H2 & H3 & _).
  apply (X15_filtered_rows_in_scan test_task_filtered test_sequence
           (py "seq1") 31 r0 eq_refl eq_refl eq_refl).
  - repeat constructor.
  - vm_compute. discriminate.
  - exact Hin.
  - rewrite H2, H3. vm_compute. discriminate.
  - rewrite H3. vm_compute. reflexivity.
Defined.

(** * The callers of [run] *)

Lemma run_raises (self : FindTALTask) (file : fasta_file) :
  exists e, run self file = inl e.
Proof.
  unfold run. destruct file as [|e|[|first_record rs]]; simpl.
  - eexists; reflexivity.
  - destruct e; eexists; reflexivity.
  - eexists; reflexivity.
  - eexists; reflexivity.
Qed.

Lemma run_raises_logger (self : FindTALTask) (first_record : str * str)
    (rs : list (str * str)) :
  run self (Records (first_record :: rs))
  = inl (Exception
           (py "Error reading FASTA file: name 'logger' is not defined")).
Proof. reflexivity. Qed.

(** X16: the command line never completes: whatever the arguments and the
    file, [main] does not return and never logs
    ["TAL finding task completed successfully!"]. *)
Theorem X16_cli_never_completes (args : cli.Namespace)
    (file_main file_run : fasta_file) :
  snd (cli.main args file_main file_run) <> Returns /\
  ~ In (cli.INFO, py "TAL finding task completed successfully!")
       (fst (cli.main args file_main file_run)).
Proof.
  unfold cli.main.
  destruct file_main as [|e|[|first_record rs]].
  - simpl. split; [discriminate | intros [H|[]]; discriminate].
  - destruct e; simpl; (split; [discriminate | intros [H|[]]; discriminate]).
  - simpl. split; [discriminate | intros [H|[]]; discriminate].
  - cbv zeta iota beta.
    destruct (run_raises
                (__init__ (cli.fasta args) (cli.min_spacer args)
                   (cli.max_spacer args) (cli.array_min args)
                   (cli.array_max args) (Some (cli.outpath args))
                   (cli.filter_base args)
                   match cli.upstream_bases args with
                   | Some (c :: u) => split (c :: u) ","%char
                   | _ => [py "T"]
                   end) file_run) as [e He].
    rewrite He. simpl. split; [discriminate|].
    intros [H|[H|[H|[]]]]; discriminate.
Qed.

(** X17: how the command line ends. When the first reading finds no
    record (missing file, unreadable file, empty file) it logs one error
    line and leaves with status 1, without building a task; for a missing
    file the line is ["FASTA file not found: <path>"]. When the first
    reading finds a record it logs three lines at level INFO, naming the
    file, the first sequence with its length, and the start of the task,
    and the exception of [run] escapes: the [Exception] about [logger]
    whenever [run] too finds a record. *)
Theorem X17_cli_endings (args : cli.Namespace)
    (file_main file_run : fasta_file) :
  ((forall first_record rs, file_main <> Records (first_record :: rs)) ->
   exists msg,
     cli.main args file_main file_run = ([(cli.ERROR, msg)], SystemExit 1)) /\
  (file_main = Missing ->
   cli.main args file_main file_run
   = ([(cli.ERROR, py "FASTA file not found: " ++ cli.fasta args)],
      SystemExit 1)) /\
  (forall first_record rs,
     file_main = Records (first_record :: rs) ->
     fst (cli.main args file_main file_run)
     = [ (cli.INFO, py "Processing FASTA file: " ++ cli.fasta args);
         (cli.INFO, py "First sequence: " ++ fst first_record
                      ++ py " (length: "
                      ++ str_of_Z (len (snd first_record)) ++ py ")");
         (cli.INFO, py "Starting TAL finding task...") ] /\
     (exists e, snd (cli.main args file_main file_run) = Uncaught e) /\
     forall first_record' rs',
       file_run = Records (first_record' :: rs') ->
       snd (cli.main args file_main file_run)
       = Uncaught
           (Exception
              (py "Error reading FASTA file: name 'logger' is not defined"))).
Proof.
  split; [|split].
  - intros Hno. unfold cli.main.
    destruct file_main as [|e|[|first_record rs]].
    + eexists; reflexivity.
    + destruct e; eexists; reflexivity.
    + eexists; reflexivity.
    + exfalso. exact (Hno first_record rs eq_refl).
  - intros ->. reflexivity.
  - intros first_record rs ->. unfold cli.main. cbv zeta iota beta.
    set (task := __init__ _ _ _ _ _ _ _ _).
    destruct (run_raises task file_run) as [e He].
    split; [|split].
    + rewrite He. reflexivity.
    + rewrite He. exists e. reflexivity.
    + intros first_record' rs' ->. rewrite run_raises_logger. reflexivity.
Qed.

Lemma X17_witness :
  cli.main (cli.mkNamespace (py "input.fasta") 14 18 14 18 (py "NA")
              None None) Missing Missing
  = ([(cli.ERROR, py "FASTA file not found: input.fasta")], SystemExit 1) /\
  cli.main (cli.mkNamespace (py "input.fasta") 14 18 14 18 (py "NA")
              (Some 31) (Some (py "T,A")))
    (Records [(py "seq1", test_sequence)])
    (Records [(py "seq1", test_sequence)])
  = ([ (cli.INFO, py "Processing FASTA file: input.fasta");
       (cli.INFO, py "First sequence: seq1 (length: 61)");
       (cli.INFO, py "Starting TAL finding task...") ],
     Uncaught
       (Exception
          (py "Error reading FASTA file: name 'logger' is not defined"))).
Proof.
  split.
  - destruct (X17_cli_endings
                (cli.mkNamespace (py "input.fasta") 14 18 14 18 (py "NA")
                   None None) Missing Missing) as (_ & H & _).
    exact (H eq_refl).
  - destruct (X17_cli_endings
                (cli.mkNamespace (py "input.fasta") 14 18 14 18 (py "NA")
                   (Some 31) (Some (py "T,A")))
                (Records [(py "seq1", test_sequence)])
                (Records [(py "seq1", test_sequence)])) as (_ & _ & H).
    destruct (H _ [] eq_refl) as (H1 & _ & H3).
    specialize (H3 _ [] eq_refl).
    apply injective_projections; [exact H1 | exact H3].
Defined.

Lemma check_basic_functionality_false (imp : check_package.import_outcome)
    (tmp : E str) (file : fasta_file) (cleanup : E unit) :
  snd (check_package.check_basic_functionality imp tmp file cleanup) = false.
Proof.
  unfold check_package.check_basic_functionality.
  destruct imp; [|reflexivity|reflexivity].
  destruct tmp as [e|temp_fasta]; [reflexivity|].
  cbv zeta.
  destruct (run_raises
              (__init__ temp_fasta 14 18 14 18 (Some (py "NA")) (Some 31)
                 [py "T"]) file) as [e He].
  rewrite He. destruct cleanup; reflexivity.
Qed.

(** X18: the package check never passes: [check_basic_functionality]
    returns [False] whatever the imports, the temporary file and the
    clean-up do, so [main] never returns 0; it returns 1 unless the first
    import lets an exception other than [ImportError] escape. *)
Theorem X18_check_package_fails (imp1 imp2 : check_package.import_outcome)
    (tmp : E str) (file : fasta_file) (cleanup : E unit) :
  snd (check_package.check_basic_functionality imp2 tmp file cleanup) = false /\
  snd (check_package.main imp1 imp2 tmp file cleanup) <> inr 0 /\
  ((forall e, imp1 <> check_package.ImportRaises e) ->
   snd (check_package.main imp1 imp2 tmp file cleanup) = inr 1).
Proof.
  pose proof (check_basic_functionality_false imp2 tmp file cleanup) as Hf.
  split; [exact Hf|].
  unfold check_package.main.
  destruct (check_package.check_basic_functionality imp2 tmp file cleanup)
    as [p2 func_ok].
  simpl in Hf. subst func_ok.
  destruct imp1 as [|m|e]; simpl.
  - split; [discriminate | reflexivity].
  - split; [discriminate | reflexivity].
  - split; [discriminate|]. intros H. exfalso. exact (H e eq_refl).
Qed.

Lemma X18_witness :
  snd (check_package.main check_package.Imported check_package.Imported
         (inr (py "/tmp/tmpab12cd34.fasta"))
         (Records [(py "test_sequence", test_sequence)]) (inr tt))
  = inr 1.
Proof.
  apply (X18_check_package_fails check_package.Imported
           check_package.Imported (inr (py "/tmp/tmpab12cd34.fasta"))
           (Records [(py "test_sequence", test_sequence)]) (inr tt)).
  intros e. discriminate.
Defined.
